(** * QMC5883L magnetometer driver (drivers/i2c/qmc5883l_driver.go)

    A shallow embedding of the driver: the register constants and bit
    tables, the option setters, the constructor, the initialization
    sequence, raw acquisition, the averaging read and the heading.

    Fixed-width integers are [Z] with the wrap-around written out, bytes are
    [Byte.byte], the bit tables are [gmap]s, [float64] is Rocq's primitive
    binary64 float, and the bus connection is an interface (a type class)
    whose calls are recorded, with their outcome, in a trace. *)

From Stdlib Require Import ZArith Lia List String Ascii DecimalString.
From Stdlib.Strings Require Import Byte.
From Stdlib Require Import Uint63 Floats.
From stdpp Require Import base gmap list sorting.
Import ListNotations.

Local Open Scope Z_scope.

(** ** Machine integers *)

Module Int.

(** Conversion to an unsigned [w]-bit integer: keep the low [w] bits. *)
Definition to_uint (w : Z) (z : Z) : Z := z mod 2 ^ w.

(** Conversion to a signed [w]-bit integer: two's complement
    reinterpretation of the low [w] bits. *)
Definition to_int (w : Z) (z : Z) : Z :=
  (z + 2 ^ (w - 1)) mod 2 ^ w - 2 ^ (w - 1).

Definition uint8 := to_uint 8.
Definition uint16 := to_uint 16.
Definition int16 := to_int 16.
Definition int32 := to_int 32.

Definition in_uint8 (z : Z) : Prop := 0 <= z < 256.
Definition in_uint16 (z : Z) : Prop := 0 <= z < 65536.
Definition in_int16 (z : Z) : Prop := -32768 <= z <= 32767.
Definition in_int32 (z : Z) : Prop := -2147483648 <= z <= 2147483647.

(** [a << n] on [uint16] operands. *)
Definition shl16 (a n : Z) : Z := uint16 (Z.shiftl a n).

(** [a + b] on [int32] operands (wraps on overflow). *)
Definition add32 (a b : Z) : Z := int32 (a + b).

(** The value of a byte as a number in 0..255. *)
Definition of_byte (b : byte) : Z := Z.of_N (Byte.to_N b).

End Int.

(** ** float64 *)

Module Float64.

(** [float64(n)] for an [int32] operand [n]; exact, since |n| < 2^53. *)
Definition of_int32 (n : Z) : float :=
  if n <? 0
  then PrimFloat.opp (PrimFloat.of_uint63 (Uint63.of_Z (- n)))
  else PrimFloat.of_uint63 (Uint63.of_Z n).

End Float64.

(** ** Registers and bit patterns *)

Definition qmc5883lDefaultAddress : Z := 0x0D.

Definition qmc5883lRegX : Z := 0x00.
Definition qmc5883lRegY : Z := 0x02.
Definition qmc5883lRegZ : Z := 0x04.
Definition qmc5883lRegStatus : Z := 0x06.
Definition qmc5883lRegCtrl1 : Z := 0x09.
Definition qmc5883lRegCtrl2 : Z := 0x0A.
Definition qmc5883lRegSetReset : Z := 0x0B.

Definition qmc5883lCtrl1_Mode_Standby : Z := 0x00.
Definition qmc5883lCtrl1_Mode_Continuous : Z := 0x01.
Definition qmc5883lCtrl1_ODR_10Hz : Z := 0x00.
Definition qmc5883lCtrl1_ODR_50Hz : Z := 0x04.
Definition qmc5883lCtrl1_ODR_100Hz : Z := 0x08.
Definition qmc5883lCtrl1_ODR_200Hz : Z := 0x0C.
Definition qmc5883lCtrl1_RNG_2G : Z := 0x00.
Definition qmc5883lCtrl1_RNG_8G : Z := 0x10.
Definition qmc5883lCtrl1_OSR_512 : Z := 0x00.
Definition qmc5883lCtrl1_OSR_256 : Z := 0x40.
Definition qmc5883lCtrl1_OSR_128 : Z := 0x80.
Definition qmc5883lCtrl1_OSR_64 : Z := 0xC0.

Definition qmc5883lCtrl2_SOFT_RST : Z := 0x80.
Definition qmc5883lCtrl2_ROL_PNT : Z := 0x40.
Definition qmc5883lCtrl2_INT_ENB : Z := 0x01.

(** The three lookup tables, as the map literals of the source. *)
Definition qmc5883lODRBits : gmap Z Z :=
  list_to_map
    [ (10, qmc5883lCtrl1_ODR_10Hz);
      (50, qmc5883lCtrl1_ODR_50Hz);
      (100, qmc5883lCtrl1_ODR_100Hz);
      (200, qmc5883lCtrl1_ODR_200Hz) ].

Definition qmc5883lRNGBits : gmap Z Z :=
  list_to_map
    [ (2, qmc5883lCtrl1_RNG_2G);
      (8, qmc5883lCtrl1_RNG_8G) ].

Definition qmc5883lOSRBits : gmap Z Z :=
  list_to_map
    [ (512, qmc5883lCtrl1_OSR_512);
      (256, qmc5883lCtrl1_OSR_256);
      (128, qmc5883lCtrl1_OSR_128);
      (64, qmc5883lCtrl1_OSR_64) ].

(** [m[k]] in Go: the value stored under [k], or the zero value. *)
Definition map_index (m : gmap Z Z) (k : Z) : Z := default 0 (m !! k).

(** ** Errors and formatting *)

(** A Go [error], identified with its message. *)
Definition error : Type := string.

(** [strconv.Itoa]: the decimal rendering [%v] uses for an [int]. *)
Definition itoa (z : Z) : string := NilZero.string_of_int (Z.to_int z).

(** [%v] of an [[]int]: the elements in order, space separated, in brackets. *)
Definition sprint_ints (keys : list Z) : string :=
  ("[" ++ String.concat " " (map itoa keys) ++ "]")%string.

(** [sort.Ints]: sorts in increasing order. *)
Definition sort_Ints (keys : list Z) : list Z := merge_sort Z.le keys.

(** ** Validation

    [for k := range m] visits the keys of [m] in an order the Go runtime does
    not specify. [range_keys m] is the order of one such visit; all that is
    known of it is that it is a permutation of the keys. *)

Section Configuration.

Variable range_keys : gmap Z Z -> list Z.

Definition range_keys_spec : Prop :=
  forall m : gmap Z Z, range_keys m ≡ₚ (map_to_list m).*1.

Definition qmc5883lValidateODR (odr : Z) : option error :=
  match qmc5883lODRBits !! odr with
  | Some _ => None
  | None =>
      let keys := fold_left (fun keys k => keys ++ [k]) (range_keys qmc5883lODRBits) [] in
      let keys := sort_Ints keys in
      Some ("ODR must be one of: " ++ sprint_ints keys)%string
  end.

Definition qmc5883lValidateRNG (rng : Z) : option error :=
  match qmc5883lRNGBits !! rng with
  | Some _ => None
  | None =>
      let keys := fold_left (fun keys k => keys ++ [k]) (range_keys qmc5883lRNGBits) [] in
      let keys := sort_Ints keys in
      Some ("RNG must be one of: " ++ sprint_ints keys)%string
  end.

Definition qmc5883lValidateOSR (osr : Z) : option error :=
  match qmc5883lOSRBits !! osr with
  | Some _ => None
  | None =>
      let keys := fold_left (fun keys k => keys ++ [k]) (range_keys qmc5883lOSRBits) [] in
      let keys := sort_Ints keys in
      Some ("OSR must be one of: " ++ sprint_ints keys)%string
  end.

(** ** The driver and its options *)

(** Modelled from the spec: the embedded [*Driver] of the i2c package, whose
    declaration lies outside qmc5883l_driver.go. Of it, the two arguments
    that the constructor passes to [NewDriver] are kept as given: the base
    name and the default bus address. What [NewDriver] itself makes of them
    (the name under which the driver is finally known) is not modelled, and
    no statement below is about it. Its connection is the [Connection]
    interface below, its mutex shows as the [EvLock] and [EvUnlock] events,
    and its [afterStart] hook is [initialize]. *)
Record Driver : Type := mkDriver {
  name : string;
  defaultAddress : Z
}.

Definition NewDriver (name : string) (address : Z) : Driver :=
  mkDriver name address.

Record QMC5883LDriver : Type := mkQMC5883LDriver {
  driver : Driver;
  odr : Z;
  rng : Z;
  osr : Z;
  mode : Z
}.

(** The [Config] interface: the object an option is applied to is a
    QMC5883L driver, or a driver of some other type. *)
Inductive Config : Type :=
| IsQMC5883L (d : QMC5883LDriver)
| IsOther (other : string).

(** An option, [func(Config)]: a call that may panic. It yields the object
    as the call leaves it, and the value passed to [panic], if any. *)
Definition Option : Type := Config -> Config * option error.

(** With [qmc5883lDebug] false, a setter applied to an object of another
    type does nothing, not even log. *)
Definition qmc5883lDebug : bool := false.

Definition WithQMC5883LODR (val : Z) : Option := fun c =>
  match c with
  | IsQMC5883L d =>
      match qmc5883lValidateODR val with
      | Some err => (c, Some err)
      | None =>
          (IsQMC5883L (mkQMC5883LDriver (driver d) val (rng d) (osr d) (mode d)), None)
      end
  | IsOther _ => (c, None)
  end.

Definition WithQMC5883LRNG (val : Z) : Option := fun c =>
  match c with
  | IsQMC5883L d =>
      match qmc5883lValidateRNG val with
      | Some err => (c, Some err)
      | None =>
          (IsQMC5883L (mkQMC5883LDriver (driver d) (odr d) val (osr d) (mode d)), None)
      end
  | IsOther _ => (c, None)
  end.

Definition WithQMC5883LOSR (val : Z) : Option := fun c =>
  match c with
  | IsQMC5883L d =>
      match qmc5883lValidateOSR val with
      | Some err => (c, Some err)
      | None =>
          (IsQMC5883L
             (mkQMC5883LDriver (driver d) (odr d) (rng d)
                (map_index qmc5883lOSRBits val) (mode d)), None)
      end
  | IsOther _ => (c, None)
  end.

(** [for _, option := range options { option(q) }]: a panic ends the loop
    and the constructor. *)
Fixpoint apply_options (options : list Option) (c : Config) : Config * option error :=
  match options with
  | [] => (c, None)
  | option :: options =>
      match option c with
      | (c, Some err) => (c, Some err)
      | (c, None) => apply_options options c
      end
  end.

(** The constructor. Its connector argument is carried by the [Connection]
    instance of the methods; the result is the new driver as an object, or
    the panic of an option. *)
Definition NewQMC5883LDriver (options : list Option) : Config * option error :=
  let q :=
    mkQMC5883LDriver
      (NewDriver "QMC5883L" qmc5883lDefaultAddress)
      50
      2
      (map_index qmc5883lOSRBits 512)
      qmc5883lCtrl1_Mode_Continuous in
  apply_options options (IsQMC5883L q).

(** The options that qmc5883l_driver.go exports. *)
Inductive exposed_option : Option -> Prop :=
| exposed_ODR val : exposed_option (WithQMC5883LODR val)
| exposed_RNG val : exposed_option (WithQMC5883LRNG val)
| exposed_OSR val : exposed_option (WithQMC5883LOSR val).

End Configuration.

(** ** The bus connection

    The transport is outside the driver: it is an interface with a block
    read and a byte write, over a state [W] of the bus and the device that
    each call may change. A block read is given the length of the caller's
    buffer and answers with the bytes it stores there. *)

Class Connection (W : Type) : Type := {
  ReadBlockData : Z -> nat -> W -> W * (list byte * option error);
  WriteByteData : Z -> Z -> W -> W * option error
}.

(** What a method of the driver does to the outside, in order. A bus call is
    recorded with its outcome: the buffer after a block read, and the error
    returned ([None] is Go's [nil]). *)
Inductive event : Type :=
| EvLock
| EvUnlock
| EvSleep (ms : Z)
| EvReadBlockData (reg : Z) (data : list byte) (err : option error)
| EvWriteByteData (reg val : Z) (err : option error).

(** A method: from the state of the bus to a result, the new state and the
    events of the call. *)
Definition M (W A : Type) : Type := W -> A * W * list event.

#[global] Instance M_ret {W} : MRet (M W) := fun A a w => (a, w, []).

#[global] Instance M_bind {W} : MBind (M W) := fun A B f m w =>
  let '(a, w1, t1) := m w in
  let '(b, w2, t2) := f a w1 in
  (b, w2, t1 ++ t2).

Definition emit {W} (e : event) : M W unit := fun w => (tt, w, [e]).

Definition Lock {W} : M W unit := emit EvLock.
Definition Unlock {W} : M W unit := emit EvUnlock.
Definition Sleep {W} (ms : Z) : M W unit := emit (EvSleep ms).

(** [make([]byte, n)] *)
Definition make_bytes (n : nat) : list byte := repeat x00 n.

(** Bytes stored by a callee into a slice it was passed: the slice keeps
    its length. *)
Definition store_into (buf src : list byte) : list byte :=
  firstn (length buf) (src ++ skipn (length src) buf).

(** [q.connection.ReadBlockData(reg, data)], returning the buffer after the
    call along with the error. *)
Definition readBlockData {W} `{Connection W} (reg : Z) (data : list byte)
  : M W (list byte * option error) := fun w =>
  let '(w', (bytes, err)) := ReadBlockData reg (length data) w in
  let data' := store_into data bytes in
  ((data', err), w', [EvReadBlockData reg data' err]).

(** [q.connection.WriteByteData(reg, val)] *)
Definition writeByteData {W} `{Connection W} (reg val : Z) : M W (option error) := fun w =>
  let '(w', err) := WriteByteData reg val w in
  (err, w', [EvWriteByteData reg val err]).

(** [data[i]] as a number; the buffers indexed here have length 6. *)
Definition byte_at (data : list byte) (i : nat) : Z := Int.of_byte (nth i data x00).

(** ** Acquisition *)

Section Acquisition.

Context {W : Type} `{Connection W}.

(** The three words of a 6-byte block, as the last lines of [readRawData]
    compute them. *)
Definition decode (data : list byte) : Z * Z * Z :=
  let x := Int.int16 (Z.lor (Int.uint16 (byte_at data 1)) (Int.shl16 (Int.uint16 (byte_at data 0)) 8)) in
  let y := Int.int16 (Z.lor (Int.uint16 (byte_at data 3)) (Int.shl16 (Int.uint16 (byte_at data 2)) 8)) in
  let z := Int.int16 (Z.lor (Int.uint16 (byte_at data 5)) (Int.shl16 (Int.uint16 (byte_at data 4)) 8)) in
  (x, y, z).

Definition readRawData (q : QMC5883LDriver) : M W (Z * Z * Z * option error) :=
  let data := make_bytes 6 in
  '(data, err) ← readBlockData qmc5883lRegX data;
  match err with
  | Some _ => mret (0, 0, 0, err)
  | None => mret (decode data, None)
  end.

Definition numReadings : nat := 10.

(** The loop of [Read] with [n] iterations left: the sums at the end, or
    the error that ended it. *)
Fixpoint Read_loop (q : QMC5883LDriver) (n : nat) (sums : Z * Z * Z)
  : M W (Z * Z * Z + error) :=
  match n with
  | O => mret (inl sums)
  | S n =>
      '(xr, yr, zr, err) ← readRawData q;
      match err with
      | Some err => mret (inr err)
      | None =>
          let '(sumX, sumY, sumZ) := sums in
          let sumX := Int.add32 sumX (Int.int32 xr) in
          let sumY := Int.add32 sumY (Int.int32 yr) in
          let sumZ := Int.add32 sumZ (Int.int32 zr) in
          Sleep 10;;
          Read_loop q n (sumX, sumY, sumZ)
      end
  end.

(** [float64(sum) / numReadings] *)
Definition average (sum : Z) : float :=
  PrimFloat.div (Float64.of_int32 sum) (Float64.of_int32 (Z.of_nat numReadings)).

Definition scale_of (rng : Z) : float :=
  if rng =? 8 then 3000%float else 12000%float.

Definition Read (q : QMC5883LDriver) : M W (float * float * float * option error) :=
  Lock;;
  r ← Read_loop q numReadings (0, 0, 0);
  match r with
  | inr err =>
      Unlock;;
      mret (0%float, 0%float, 0%float, Some err)
  | inl (sumX, sumY, sumZ) =>
      let avgX := average sumX in
      let avgY := average sumY in
      let avgZ := average sumZ in
      let scale := scale_of (rng q) in
      Unlock;;
      mret (PrimFloat.div avgX scale, PrimFloat.div avgY scale, PrimFloat.div avgZ scale, None)
  end.

(** ** Initialization *)

Definition ctrl1_of (q : QMC5883LDriver) : Z :=
  Z.lor (Z.lor (Z.lor (mode q) (map_index qmc5883lODRBits (odr q)))
               (map_index qmc5883lRNGBits (rng q)))
        (osr q).

Definition initialize (q : QMC5883LDriver) : M W (option error) :=
  err ← writeByteData qmc5883lRegCtrl2 qmc5883lCtrl2_SOFT_RST;
  match err with
  | Some _ => mret err
  | None =>
      Sleep 5;;
      let ctrl1 := ctrl1_of q in
      err ← writeByteData qmc5883lRegCtrl1 ctrl1;
      match err with
      | Some _ => mret err
      | None =>
          let ctrl2 := Int.uint8 qmc5883lCtrl2_ROL_PNT in
          writeByteData qmc5883lRegCtrl2 ctrl2
      end
  end.

End Acquisition.

(** ** Heading

    [math.Atan2] belongs to the Go library; the driver is modelled over
    any function in its place. *)

Definition Pi : float := 0x1.921fb54442d18p+1%float.

(** Radians to degrees in [Heading], with its shift of negative values. *)
Definition to_degrees (heading : float) : float :=
  let headingDegrees := PrimFloat.div (PrimFloat.mul heading 180) Pi in
  if PrimFloat.ltb headingDegrees 0
  then PrimFloat.add headingDegrees 360
  else headingDegrees.

Section HeadingOf.

Context {W : Type} `{Connection W}.

Variable Atan2 : float -> float -> float.

Definition Heading (q : QMC5883LDriver) : M W (float * option error) :=
  '(x, y, _, err) ← Read q;
  match err with
  | Some _ => mret (0%float, err)
  | None =>
      let heading := Atan2 y x in
      mret (to_degrees heading, None)
  end.

End HeadingOf.

(** ** A scripted bus

    The simplest connection: the answers to the successive block reads and
    byte writes are listed in advance. A call beyond the end of its list
    fails. *)

Record Script : Type := mkScript {
  read_answers : list (list byte * option error);
  write_answers : list (option error)
}.

Definition script_exhausted : error := "script exhausted"%string.

#[global] Instance Script_connection : Connection Script := {
  ReadBlockData := fun reg len s =>
    match read_answers s with
    | [] => (s, ([], Some script_exhausted))
    | a :: rest => (mkScript rest (write_answers s), a)
    end;
  WriteByteData := fun reg val s =>
    match write_answers s with
    | [] => (s, Some script_exhausted)
    | a :: rest => (mkScript (read_answers s) rest, a)
    end
}.

(** The driver the constructor builds when given no option. *)
Definition default_driver : QMC5883LDriver :=
  mkQMC5883LDriver (NewDriver "QMC5883L" qmc5883lDefaultAddress) 50 2 0 1.

(** A block whose X word is 12000 (0x2EE0), and a script of ten of them. *)
Definition block_12000 : list byte := [x2e; xe0; x00; x00; x00; x00].

Definition ten_blocks : Script :=
  mkScript (repeat (block_12000, None) 10) [].

(** A block whose words are -1, 256 and -32768. *)
Definition block_mixed : list byte := [xff; xff; x01; x00; x80; x00].

Definition bus_down : error := "i2c: bus error"%string.

(** Three good reads, then a failing one, then good ones again. *)
Definition fails_at_fourth : Script :=
  mkScript (repeat (block_mixed, None) 3 ++ [([], Some bus_down)]
              ++ repeat (block_mixed, None) 6) [].

(** An iteration order for the examples: the keys from last to first. *)
Definition backwards (m : gmap Z Z) : list Z := reverse (map_to_list m).*1.

(** ** Vocabulary of the statements *)

(** The word made of a high and a low byte: [int16((hi << 8) | lo)]. *)
Definition word16 (hi lo : Z) : Z := Int.int16 (Z.lor (Z.shiftl hi 8) lo).

(** The block reads of a trace, in order: the buffer and the error of each. *)
Definition raw_reads (t : list event) : list (list byte * option error) :=
  flat_map (fun e => match e with
                     | EvReadBlockData _ data err => [(data, err)]
                     | _ => []
                     end) t.

(** The byte writes of a trace, in order: register, value and error. *)
Definition byte_writes (t : list event) : list (Z * Z * option error) :=
  flat_map (fun e => match e with
                     | EvWriteByteData reg val err => [(reg, val, err)]
                     | _ => []
                     end) t.

(** The events of the iterations of [Read]'s loop that read [blocks]
    without error. *)
Definition ok_events (blocks : list (list byte)) : list event :=
  flat_map (fun data => [EvReadBlockData qmc5883lRegX data None; EvSleep 10]) blocks.

Definition sample_x (data : list byte) : Z := (decode data).1.1.
Definition sample_y (data : list byte) : Z := (decode data).1.2.
Definition sample_z (data : list byte) : Z := (decode data).2.

(** The samples of a trace: the decoded blocks of its reads. *)
Definition samples_x (t : list event) : list Z := map (fun r => sample_x r.1) (raw_reads t).
Definition samples_y (t : list event) : list Z := map (fun r => sample_y r.1) (raw_reads t).
Definition samples_z (t : list event) : list Z := map (fun r => sample_z r.1) (raw_reads t).

(** The sum of a list of integers, in [Z]. *)
Definition Zsum (l : list Z) : Z := fold_right Z.add 0 l.

(** One axis of the loop's accumulation: the [int32] sum after the samples
    [xs], starting from [s]. *)
Definition acc32 (xs : list Z) (s : Z) : Z :=
  fold_left (fun s x => Int.add32 s (Int.int32 x)) xs s.

(** One iteration's update of the three sums. *)
Definition accumulate (sums : Z * Z * Z) (data : list byte) : Z * Z * Z :=
  let '(sumX, sumY, sumZ) := sums in
  (Int.add32 sumX (Int.int32 (sample_x data)),
   Int.add32 sumY (Int.int32 (sample_y data)),
   Int.add32 sumZ (Int.int32 (sample_z data))).

(** A filtered value as the claims write it: the sum divided by 10, then by
    the scale. *)
Definition gauss (sum : Z) (scale : float) : float :=
  PrimFloat.div (PrimFloat.div (Float64.of_int32 sum) 10%float) scale.

(** The traces of [Read] on these two scripts. *)
Definition ten_blocks_trace : list event :=
  EvLock :: ok_events (repeat block_12000 10) ++ [EvUnlock].

Definition fails_at_fourth_trace : list event :=
  EvLock :: ok_events (repeat block_mixed 3)
         ++ [EvReadBlockData qmc5883lRegX (make_bytes 6) (Some bus_down); EvUnlock].

(** What the exposed options keep true of a driver: the mode is
    continuous and the [osr] field holds one of the four patterns. *)
Definition well_configured (c : Config) : Prop :=
  exists q, c = IsQMC5883L q /\
            mode q = 0x01 /\
            In (osr q) [0x00; 0x40; 0x80; 0xC0].

(** Three options for the constructor, and the driver they lead to. *)
Definition three_options : list Option :=
  [WithQMC5883LODR backwards 200; WithQMC5883LRNG backwards 8; WithQMC5883LOSR backwards 64].

Definition three_options_driver : QMC5883LDriver :=
  mkQMC5883LDriver (NewDriver "QMC5883L" qmc5883lDefaultAddress) 200 8 0xC0 0x01.

(** The exposed options as data: which setter, with which value. *)
Inductive setting : Type :=
| SetODR (val : Z)
| SetRNG (val : Z)
| SetOSR (val : Z).

Definition option_of (range_keys : gmap Z Z -> list Z) (s : setting) : Option :=
  match s with
  | SetODR val => WithQMC5883LODR range_keys val
  | SetRNG val => WithQMC5883LRNG range_keys val
  | SetOSR val => WithQMC5883LOSR range_keys val
  end.

(** A setting is legal when its value is a key of its table. *)
Definition legal (s : setting) : Prop :=
  match s with
  | SetODR val => In val [10; 50; 100; 200]
  | SetRNG val => In val [2; 8]
  | SetOSR val => In val [512; 256; 128; 64]
  end.

(** The values a list of settings gives to each field, in order. *)
Definition odr_values (ss : list setting) : list Z :=
  flat_map (fun s => match s with SetODR val => [val] | _ => [] end) ss.

Definition rng_values (ss : list setting) : list Z :=
  flat_map (fun s => match s with SetRNG val => [val] | _ => [] end) ss.

Definition osr_values (ss : list setting) : list Z :=
  flat_map (fun s => match s with SetOSR val => [val] | _ => [] end) ss.

(** A driver as the constructor and the exposed options can make it. *)
Definition well_formed (q : QMC5883LDriver) : Prop :=
  driver q = NewDriver "QMC5883L" qmc5883lDefaultAddress /\
  In (odr q) [10; 50; 100; 200] /\
  In (rng q) [2; 8] /\
  In (osr q) [0x00; 0x40; 0x80; 0xC0] /\
  mode q = 0x01.

(** Settings for the examples. *)
Definition some_settings : list setting :=
  [SetODR 10; SetRNG 8; SetOSR 64; SetODR 200; SetOSR 256].

(** The byte of a number in 0..255 (and [x00] outside). *)
Definition byte_of (z : Z) : byte := default x00 (Byte.of_N (Z.to_N z)).

(** The two bytes of a 16-bit word in two's complement, high byte first. *)
Definition encode16 (v : Z) : list byte :=
  let u := v mod 65536 in
  [byte_of (u / 256); byte_of (u mod 256)].

(** The 6-byte block that holds three words, X first. *)
Definition encode (sample : Z * Z * Z) : list byte :=
  let '(x, y, z) := sample in
  encode16 x ++ encode16 y ++ encode16 z.

(** The time slept in a trace, in milliseconds. *)
Definition total_sleep (t : list event) : Z :=
  Zsum (flat_map (fun e => match e with EvSleep ms => [ms] | _ => [] end) t).

(** The number of block reads of a trace that returned no error. *)
Definition successful_reads (t : list event) : nat :=
  length (filter (fun r : list byte * option error => r.2 = None) (raw_reads t)).

(** The events of an acquisition: block reads of 6 bytes at the X register
    and pauses of 10 ms; no write, no lock, no unlock. *)
Definition acquisition_event (e : event) : Prop :=
  match e with
  | EvReadBlockData reg data _ => reg = 0x00 /\ length data = 6%nat
  | EvSleep ms => ms = 10
  | _ => False
  end.

(** A check of [P] on the [n] integers from [z] on. *)
Fixpoint check_from (P : Z -> bool) (n : nat) (z : Z) : bool :=
  match n with
  | O => true
  | S n => if P z then check_from P n (z + 1) else false
  end.

(** What holds of the filtered values of a sum, at both scales: they are
    finite and lie between the values of the extreme readings, their sign is
    that of the sum, and the value at 3000 is 4 times the value at 12000. *)
Definition filtered_ok (sum : Z) : bool :=
  let g2 := gauss sum 12000 in
  let g8 := gauss sum 3000 in
  PrimFloat.is_finite g2 && PrimFloat.is_finite g8
  && PrimFloat.leb (PrimFloat.div (-32768) 12000) g2
  && PrimFloat.leb g2 (PrimFloat.div 32767 12000)
  && PrimFloat.leb (PrimFloat.div (-32768) 3000) g8
  && PrimFloat.leb g8 (PrimFloat.div 32767 3000)
  && Bool.eqb (PrimFloat.ltb g2 0) (sum <? 0)
  && Bool.eqb (PrimFloat.ltb 0 g2) (0 <? sum)
  && Bool.eqb (PrimFloat.ltb g8 0) (sum <? 0)
  && Bool.eqb (PrimFloat.ltb 0 g8) (0 <? sum)
  && PrimFloat.Leibniz.eqb g8 (PrimFloat.mul 4 g2).

(** ** Facts on machine integers *)

Lemma of_byte_range (b : byte) : 0 <= Int.of_byte b < 256.
Proof.
  unfold Int.of_byte. pose proof (Byte.to_N_bounded b). lia.
Qed.

Lemma uint16_id (z : Z) : 0 <= z < 65536 -> Int.uint16 z = z.
Proof. intros Hz. unfold Int.uint16, Int.to_uint. apply Z.mod_small. lia. Qed.

Lemma int32_id (z : Z) : Int.in_int32 z -> Int.int32 z = z.
Proof.
  unfold Int.in_int32, Int.int32, Int.to_int. intros Hz.
  change (2 ^ (32 - 1)) with 2147483648. change (2 ^ 32) with 4294967296.
  rewrite Z.mod_small; lia.
Qed.

Lemma int16_range (z : Z) : Int.in_int16 (Int.int16 z).
Proof.
  unfold Int.in_int16, Int.int16, Int.to_int.
  change (2 ^ (16 - 1)) with 32768. change (2 ^ 16) with 65536.
  pose proof (Z.mod_pos_bound (z + 32768) 65536). lia.
Qed.

(** A byte shifted left by 8 and a byte have no bit in common, so that
    or-ing them adds them. *)
Lemma lor_shiftl_byte (hi lo : Z) :
  0 <= hi -> 0 <= lo < 256 -> Z.lor (Z.shiftl hi 8) lo = 256 * hi + lo.
Proof.
  intros Hhi Hlo.
  assert (Hland : Z.land (Z.shiftl hi 8) lo = 0).
  { apply Z.bits_inj'. intros n Hn. rewrite Z.land_spec, Z.bits_0.
    destruct (Z.lt_ge_cases n 8) as [Hlt | Hge].
    - rewrite Z.shiftl_spec_low by lia. reflexivity.
    - destruct (Z.eq_dec lo 0) as [-> | Hne].
      + rewrite Z.bits_0. apply andb_false_r.
      + rewrite (Z.bits_above_log2 lo n); [apply andb_false_r | lia |].
        assert (Z.log2 lo < 8); [| lia].
        apply Z.log2_lt_pow2; lia. }
  rewrite <- Z.lxor_lor by exact Hland.
  rewrite <- Z.add_nocarry_lxor by exact Hland.
  rewrite Z.shiftl_mul_pow2 by lia. change (2 ^ 8) with 256. lia.
Qed.

Lemma word16_arith (hi lo : Z) :
  0 <= hi < 256 -> 0 <= lo < 256 ->
  word16 hi lo = if hi <? 128 then 256 * hi + lo else 256 * hi + lo - 65536.
Proof.
  intros Hhi Hlo. unfold word16. rewrite lor_shiftl_byte by lia.
  unfold Int.int16, Int.to_int.
  change (2 ^ (16 - 1)) with 32768. change (2 ^ 16) with 65536.
  destruct (Z.ltb_spec hi 128).
  - rewrite Z.mod_small; lia.
  - replace (256 * hi + lo + 32768) with ((256 * hi + lo - 32768) + 1 * 65536) by lia.
    rewrite Z.mod_add by lia. rewrite Z.mod_small; lia.
Qed.

(** The code's expression for a word is the claim's. *)
Lemma code_word16 (hi lo : byte) :
  Int.int16 (Z.lor (Int.uint16 (Int.of_byte lo))
                   (Int.shl16 (Int.uint16 (Int.of_byte hi)) 8))
  = word16 (Int.of_byte hi) (Int.of_byte lo).
Proof.
  pose proof (of_byte_range hi) as Hhi. pose proof (of_byte_range lo) as Hlo.
  unfold word16, Int.shl16.
  rewrite (uint16_id (Int.of_byte lo)), (uint16_id (Int.of_byte hi)) by lia.
  rewrite (uint16_id (Z.shiftl _ 8)).
  - f_equal. apply Z.lor_comm.
  - rewrite Z.shiftl_mul_pow2 by lia. change (2 ^ 8) with 256. lia.
Qed.

Lemma decode_words (data : list byte) :
  decode data =
    (word16 (byte_at data 0) (byte_at data 1),
     word16 (byte_at data 2) (byte_at data 3),
     word16 (byte_at data 4) (byte_at data 5)).
Proof. unfold decode, byte_at. rewrite !code_word16. reflexivity. Qed.

Lemma decode_range (data : list byte) :
  let '(x, y, z) := decode data in
  Int.in_int16 x /\ Int.in_int16 y /\ Int.in_int16 z.
Proof. unfold decode. auto using int16_range. Qed.

Lemma length_store_into (buf src : list byte) :
  length (store_into buf src) = length buf.
Proof.
  unfold store_into. rewrite length_firstn, length_app, length_skipn. lia.
Qed.

(** ** The loop of [Read] *)

Lemma raw_reads_app (t1 t2 : list event) :
  raw_reads (t1 ++ t2) = raw_reads t1 ++ raw_reads t2.
Proof. unfold raw_reads. apply flat_map_app. Qed.

Lemma raw_reads_ok_events (blocks : list (list byte)) :
  raw_reads (ok_events blocks) = map (fun data => (data, None)) blocks.
Proof.
  induction blocks as [| data blocks IH]; [reflexivity |].
  simpl. f_equal. exact IH.
Qed.

Lemma bind_step {W A B} (m : M W A) (f : A -> M W B) (w w1 : W) (a : A) (t1 : list event) :
  m w = (a, w1, t1) ->
  (m ≫= f) w = (let '(b, w2, t2) := f a w1 in (b, w2, t1 ++ t2)).
Proof. intros Hm. unfold mbind, M_bind. rewrite Hm. reflexivity. Qed.

Section LoopFacts.

Context {W : Type} `{Connection W}.

(** A raw read is one block read of a 6-byte buffer at the X register; it
    returns the decoded buffer, or zeros and the error. *)
Lemma readRawData_run (q : QMC5883LDriver) (w : W) :
  exists data err w',
    length data = 6%nat /\
    readRawData q w =
      (match err with
       | Some _ => (0, 0, 0, err)
       | None => (decode data, None)
       end, w', [EvReadBlockData qmc5883lRegX data err]).
Proof.
  unfold readRawData, readBlockData, mbind, M_bind, mret, M_ret.
  destruct (ReadBlockData qmc5883lRegX (length (make_bytes 6)) w) as [w' [bytes err]].
  exists (store_into (make_bytes 6) bytes), err, w'.
  split; [apply length_store_into |].
  destruct err; reflexivity.
Qed.

(** The loop reads blocks without error until it has done its [n]
    iterations, or until a read fails. *)
Lemma Read_loop_run (q : QMC5883LDriver) (n : nat) :
  forall (sums : Z * Z * Z) (w : W),
  exists (blocks : list (list byte)) (w' : W),
    Forall (fun data => length data = 6%nat) blocks /\
    ((length blocks = n /\
      Read_loop q n sums w = (inl (fold_left accumulate blocks sums), w', ok_events blocks))
     \/
     (exists data err,
        (length blocks < n)%nat /\
        Read_loop q n sums w =
          (inr err, w', ok_events blocks ++ [EvReadBlockData qmc5883lRegX data (Some err)]))).
Proof.
  induction n as [| n IH]; intros sums w.
  - exists [], w. split; [constructor |]. left. split; reflexivity.
  - destruct (readRawData_run q w) as (data & err & w1 & Hlen & Hraw).
    cbn [Read_loop]. rewrite (bind_step _ _ _ _ _ _ Hraw).
    destruct err as [err |].
    + exists [], w1. split; [constructor |]. right. exists data, err.
      split; [simpl; lia | reflexivity].
    + destruct sums as [[sumX sumY] sumZ].
      destruct (decode data) as [[xr yr] zr] eqn:Hdec.
      specialize (IH (Int.add32 sumX (Int.int32 xr), Int.add32 sumY (Int.int32 yr),
                      Int.add32 sumZ (Int.int32 zr)) w1).
      destruct IH as (blocks & w' & Hall & IH).
      exists (data :: blocks), w'. split; [constructor; assumption |].
      assert (Hacc : accumulate (sumX, sumY, sumZ) data =
                     (Int.add32 sumX (Int.int32 xr), Int.add32 sumY (Int.int32 yr),
                      Int.add32 sumZ (Int.int32 zr))).
      { unfold accumulate, sample_x, sample_y, sample_z. rewrite Hdec. reflexivity. }
      rewrite (bind_step (Sleep 10) _ w1 w1 tt [EvSleep 10] eq_refl).
      destruct IH as [[Hn Hrun] | (data' & err & Hn & Hrun)].
      * left. split; [simpl; lia |].
        rewrite Hrun. cbn [fold_left]. rewrite Hacc. reflexivity.
      * right. exists data', err. split; [simpl; lia |].
        rewrite Hrun. reflexivity.
Qed.

End LoopFacts.

(** ** The sums do not wrap *)

Lemma Zsum_app (xs ys : list Z) : Zsum (xs ++ ys) = Zsum xs + Zsum ys.
Proof. induction xs as [| x xs IH]; simpl; lia. Qed.

Lemma Zsum_bounds (xs : list Z) :
  Forall Int.in_int16 xs ->
  -32768 * Z.of_nat (length xs) <= Zsum xs <= 32767 * Z.of_nat (length xs).
Proof.
  induction 1 as [| x xs Hx _ IH]; simpl Zsum; simpl length; [lia |].
  unfold Int.in_int16 in Hx. lia.
Qed.

(** As long as the bounds of the samples still to come leave room, the
    [int32] accumulation is the sum in [Z]. *)
Lemma acc32_exact (xs : list Z) :
  forall s : Z,
    Forall Int.in_int16 xs ->
    -2147483648 <= s - 32768 * Z.of_nat (length xs) ->
    s + 32767 * Z.of_nat (length xs) <= 2147483647 ->
    acc32 xs s = s + Zsum xs.
Proof.
  induction xs as [| x xs IH]; intros s Hall Hlo Hhi; simpl.
  - lia.
  - inversion Hall as [| ? ? Hx Hxs]; subst.
    unfold Int.in_int16 in Hx. simpl length in Hlo, Hhi.
    unfold Int.add32. rewrite (int32_id x) by (unfold Int.in_int32; lia).
    rewrite (int32_id (s + x)) by (unfold Int.in_int32; lia).
    fold (acc32 xs (s + x)). rewrite IH by (assumption || lia). lia.
Qed.

Lemma fold_accumulate (blocks : list (list byte)) :
  forall sumX sumY sumZ : Z,
    fold_left accumulate blocks (sumX, sumY, sumZ) =
      (acc32 (map sample_x blocks) sumX,
       acc32 (map sample_y blocks) sumY,
       acc32 (map sample_z blocks) sumZ).
Proof.
  induction blocks as [| data blocks IH]; intros sumX sumY sumZ; [reflexivity |].
  cbn [fold_left map accumulate]. rewrite IH. reflexivity.
Qed.

Lemma samples_in_int16 (blocks : list (list byte)) :
  Forall Int.in_int16 (map sample_x blocks) /\
  Forall Int.in_int16 (map sample_y blocks) /\
  Forall Int.in_int16 (map sample_z blocks).
Proof.
  induction blocks as [| data blocks (IHx & IHy & IHz)]; [repeat constructor |].
  pose proof (decode_range data) as Hr.
  unfold sample_x, sample_y, sample_z. cbn [map].
  destruct (decode data) as [[x y] z]. destruct Hr as (Hx & Hy & Hz).
  repeat split; constructor; assumption.
Qed.

(** Ten samples, or fewer, sum up in [int32] without wrapping. *)
Lemma acc32_ten (xs : list Z) :
  Forall Int.in_int16 xs -> (length xs <= 10)%nat ->
  acc32 xs 0 = Zsum xs /\ Int.in_int32 (Zsum xs).
Proof.
  intros Hall Hlen. split.
  - rewrite acc32_exact by (assumption || lia). lia.
  - pose proof (Zsum_bounds xs Hall). unfold Int.in_int32. lia.
Qed.

(** ** [Read] as a whole *)

Section ReadFacts.

Context {W : Type} `{Connection W}.

Lemma Read_run (q : QMC5883LDriver) (w : W) :
  exists (blocks : list (list byte)) (w' : W),
    Forall (fun data => length data = 6%nat) blocks /\
    ((length blocks = 10%nat /\
      Read q w =
        (PrimFloat.div (average (acc32 (map sample_x blocks) 0)) (scale_of (rng q)),
         PrimFloat.div (average (acc32 (map sample_y blocks) 0)) (scale_of (rng q)),
         PrimFloat.div (average (acc32 (map sample_z blocks) 0)) (scale_of (rng q)),
         None, w', EvLock :: ok_events blocks ++ [EvUnlock]))
     \/
     (exists data err,
        (length blocks < 10)%nat /\
        Read q w =
          (0%float, 0%float, 0%float, Some err, w',
           EvLock :: (ok_events blocks ++ [EvReadBlockData qmc5883lRegX data (Some err)])
                  ++ [EvUnlock]))).
Proof.
  destruct (Read_loop_run q numReadings (0, 0, 0) w) as (blocks & w' & Hall & Hrun).
  exists blocks, w'. split; [exact Hall |].
  unfold Read.
  rewrite (bind_step Lock _ w w tt [EvLock] eq_refl).
  destruct Hrun as [[Hn Hrun] | (data & err & Hn & Hrun)].
  - left. split; [exact Hn |].
    rewrite (bind_step _ _ _ _ _ _ Hrun).
    rewrite fold_accumulate.
    rewrite (bind_step Unlock _ w' w' tt [EvUnlock] eq_refl).
    cbn. rewrite ?app_nil_r. reflexivity.
  - right. exists data, err. split; [exact Hn |].
    rewrite (bind_step _ _ _ _ _ _ Hrun).
    rewrite (bind_step Unlock _ w' w' tt [EvUnlock] eq_refl).
    cbn. rewrite ?app_nil_r. reflexivity.
Qed.

End ReadFacts.

(** ** Raw acquisition *)

(** C4. Whatever 6-byte block the bus read at the X output register leaves
    in the buffer, [readRawData] returns for each axis the signed 16-bit
    word whose high byte is the earlier byte of the pair:
    x = int16((data[0] << 8) | data[1]), y = int16((data[2] << 8) | data[3]),
    z = int16((data[4] << 8) | data[5]); as a number, 256 * high + low,
    less 65536 when the high byte is 128 or more. *)
Theorem readRawData_high_byte_first {W : Type} `{Connection W}
    (q : QMC5883LDriver) (w w' : W) (x y z : Z) (t : list event) :
  readRawData q w = (x, y, z, None, w', t) ->
  exists data : list byte,
    t = [EvReadBlockData qmc5883lRegX data None] /\
    length data = 6%nat /\
    x = Int.int16 (Z.lor (Z.shiftl (byte_at data 0) 8) (byte_at data 1)) /\
    y = Int.int16 (Z.lor (Z.shiftl (byte_at data 2) 8) (byte_at data 3)) /\
    z = Int.int16 (Z.lor (Z.shiftl (byte_at data 4) 8) (byte_at data 5)) /\
    x = (if byte_at data 0 <? 128
         then 256 * byte_at data 0 + byte_at data 1
         else 256 * byte_at data 0 + byte_at data 1 - 65536) /\
    y = (if byte_at data 2 <? 128
         then 256 * byte_at data 2 + byte_at data 3
         else 256 * byte_at data 2 + byte_at data 3 - 65536) /\
    z = (if byte_at data 4 <? 128
         then 256 * byte_at data 4 + byte_at data 5
         else 256 * byte_at data 4 + byte_at data 5 - 65536).
Proof.
  intros Hrun.
  destruct (readRawData_run q w) as (data & err & w1 & Hlen & Hraw).
  rewrite Hraw in Hrun. destruct err as [err |]; [discriminate |].
  rewrite decode_words in Hrun.
  injection Hrun as Hx Hy Hz _ Ht. subst x y z t.
  exists data. split; [reflexivity |]. split; [exact Hlen |].
  fold (word16 (byte_at data 0) (byte_at data 1)).
  fold (word16 (byte_at data 2) (byte_at data 3)).
  fold (word16 (byte_at data 4) (byte_at data 5)).
  repeat split; try reflexivity;
    apply word16_arith; apply of_byte_range.
Qed.

Lemma readRawData_high_byte_first_witness :
  readRawData default_driver fails_at_fourth
  = (-1, 256, -32768, None,
     mkScript (repeat (block_mixed, None) 2 ++ [([], Some bus_down)]
                 ++ repeat (block_mixed, None) 6) [],
     [EvReadBlockData qmc5883lRegX block_mixed None]) /\
  exists data : list byte,
    [EvReadBlockData qmc5883lRegX block_mixed None]
      = [EvReadBlockData qmc5883lRegX data None] /\
    length data = 6%nat /\
    -1 = Int.int16 (Z.lor (Z.shiftl (byte_at data 0) 8) (byte_at data 1)) /\
    256 = Int.int16 (Z.lor (Z.shiftl (byte_at data 2) 8) (byte_at data 3)) /\
    -32768 = Int.int16 (Z.lor (Z.shiftl (byte_at data 4) 8) (byte_at data 5)) /\
    -1 = (if byte_at data 0 <? 128
          then 256 * byte_at data 0 + byte_at data 1
          else 256 * byte_at data 0 + byte_at data 1 - 65536) /\
    256 = (if byte_at data 2 <? 128
           then 256 * byte_at data 2 + byte_at data 3
           else 256 * byte_at data 2 + byte_at data 3 - 65536) /\
    -32768 = (if byte_at data 4 <? 128
              then 256 * byte_at data 4 + byte_at data 5
              else 256 * byte_at data 4 + byte_at data 5 - 65536).
Proof.
  assert (Hrun : readRawData default_driver fails_at_fourth
                 = (-1, 256, -32768, None,
                    mkScript (repeat (block_mixed, None) 2 ++ [([], Some bus_down)]
                                ++ repeat (block_mixed, None) 6) [],
                    [EvReadBlockData qmc5883lRegX block_mixed None])).
  { vm_compute. reflexivity. }
  split; [exact Hrun |].
  exact (readRawData_high_byte_first default_driver fails_at_fourth _ _ _ _ _ Hrun).
Defined.

(** ** The filtered read *)

Lemma raw_reads_success (blocks : list (list byte)) :
  raw_reads (EvLock :: ok_events blocks ++ [EvUnlock])
  = map (fun data => (data, None)) blocks.
Proof.
  change (EvLock :: ok_events blocks ++ [EvUnlock])
    with ([EvLock] ++ ok_events blocks ++ [EvUnlock]).
  rewrite !raw_reads_app, raw_reads_ok_events. simpl. apply app_nil_r.
Qed.

Lemma raw_reads_failure (blocks : list (list byte)) (data : list byte) (err : error) :
  raw_reads (EvLock :: (ok_events blocks ++ [EvReadBlockData qmc5883lRegX data (Some err)])
                    ++ [EvUnlock])
  = map (fun data => (data, None)) blocks ++ [(data, Some err)].
Proof.
  change (EvLock :: (ok_events blocks ++ [EvReadBlockData qmc5883lRegX data (Some err)])
                 ++ [EvUnlock])
    with ([EvLock] ++ (ok_events blocks ++ [EvReadBlockData qmc5883lRegX data (Some err)])
                   ++ [EvUnlock]).
  rewrite !raw_reads_app, raw_reads_ok_events. simpl. rewrite app_nil_r. reflexivity.
Qed.

Lemma map_sample_reads (f : list byte -> Z) (blocks : list (list byte)) :
  map (fun r : list byte * option error => f r.1) (map (fun data => (data, None)) blocks)
  = map f blocks.
Proof. rewrite map_map. reflexivity. Qed.

Lemma average_gauss (sum : Z) (scale : float) :
  PrimFloat.div (average sum) scale = gauss sum scale.
Proof. reflexivity. Qed.

Lemma scale_of_cases (r : Z) :
  (r = 2 -> scale_of r = 12000%float) /\ (r = 8 -> scale_of r = 3000%float).
Proof. split; intros ->; reflexivity. Qed.

(** C1. A filtered read all of whose raw reads succeed performs exactly 10
    raw reads and returns no error and, per axis, the sum of the 10 raw
    values divided by 10 and then by the scale of the range: 12000 at 2
    Gauss, 3000 at 8 Gauss. Ten raw x readings of 12000 at 2 Gauss give
    exactly 1.0. *)
Theorem Read_filtered_average {W : Type} `{Connection W}
    (q : QMC5883LDriver) (w w' : W) (x y z : float) (err : option error)
    (t : list event) :
  Read q w = (x, y, z, err, w', t) ->
  Forall (fun r : list byte * option error => r.2 = None) (raw_reads t) ->
  length (raw_reads t) = 10%nat /\
  err = None /\
  (rng q = 2 ->
     x = gauss (Zsum (samples_x t)) 12000 /\
     y = gauss (Zsum (samples_y t)) 12000 /\
     z = gauss (Zsum (samples_z t)) 12000) /\
  (rng q = 8 ->
     x = gauss (Zsum (samples_x t)) 3000 /\
     y = gauss (Zsum (samples_y t)) 3000 /\
     z = gauss (Zsum (samples_z t)) 3000) /\
  (rng q = 2 -> samples_x t = repeat 12000 10 -> x = 1%float).
Proof.
  intros Hrun Hok.
  destruct (Read_run q w) as (blocks & w1 & Hall & [[Hn Hread] | (data & e & Hn & Hread)]);
    rewrite Hread in Hrun; injection Hrun as Hx Hy Hz Herr _ Ht; subst t.
  - rewrite raw_reads_success in *.
    unfold samples_x, samples_y, samples_z.
    rewrite raw_reads_success, !map_sample_reads, length_map.
    destruct (samples_in_int16 blocks) as (Hix & Hiy & Hiz).
    destruct (acc32_ten (map sample_x blocks) Hix) as [Hsx _];
      [rewrite length_map; lia |].
    destruct (acc32_ten (map sample_y blocks) Hiy) as [Hsy _];
      [rewrite length_map; lia |].
    destruct (acc32_ten (map sample_z blocks) Hiz) as [Hsz _];
      [rewrite length_map; lia |].
    rewrite Hsx in Hx. rewrite Hsy in Hy. rewrite Hsz in Hz.
    rewrite average_gauss in Hx, Hy, Hz.
    destruct (scale_of_cases (rng q)) as [H2 H8].
    split; [exact Hn |]. split; [auto |].
    split; [| split].
    + intros Hr. rewrite (H2 Hr) in *. auto.
    + intros Hr. rewrite (H8 Hr) in *. auto.
    + intros Hr Hs. rewrite (H2 Hr), Hs in Hx. subst x. reflexivity.
  - exfalso. rewrite raw_reads_failure in Hok.
    apply Forall_app in Hok as [_ Hlast].
    inversion Hlast as [| ? ? Hnone _]. discriminate Hnone.
Qed.

Lemma Read_filtered_average_witness :
  Read default_driver ten_blocks
  = (1%float, 0%float, 0%float, None, mkScript [] [], ten_blocks_trace) /\
  Forall (fun r : list byte * option error => r.2 = None) (raw_reads ten_blocks_trace) /\
  length (raw_reads ten_blocks_trace) = 10%nat /\
  @None error = None /\
  (rng default_driver = 2 ->
     1%float = gauss (Zsum (samples_x ten_blocks_trace)) 12000 /\
     0%float = gauss (Zsum (samples_y ten_blocks_trace)) 12000 /\
     0%float = gauss (Zsum (samples_z ten_blocks_trace)) 12000) /\
  (rng default_driver = 8 ->
     1%float = gauss (Zsum (samples_x ten_blocks_trace)) 3000 /\
     0%float = gauss (Zsum (samples_y ten_blocks_trace)) 3000 /\
     0%float = gauss (Zsum (samples_z ten_blocks_trace)) 3000) /\
  (rng default_driver = 2 -> samples_x ten_blocks_trace = repeat 12000 10 -> 1%float = 1%float).
Proof.
  assert (Hrun : Read default_driver ten_blocks
                 = (1%float, 0%float, 0%float, None, mkScript [] [], ten_blocks_trace)).
  { vm_compute. reflexivity. }
  assert (Hok : Forall (fun r : list byte * option error => r.2 = None)
                  (raw_reads ten_blocks_trace)).
  { vm_compute. repeat constructor. }
  split; [exact Hrun |]. split; [exact Hok |].
  exact (Read_filtered_average default_driver ten_blocks _ _ _ _ _ _ Hrun Hok).
Defined.

(** The same ten readings at 8 Gauss give 4.0. *)
Example Read_ten_blocks_8G :
  Read (mkQMC5883LDriver (driver default_driver) 50 8 0 1) ten_blocks
  = (4%float, 0%float, 0%float, None, mkScript [] [], ten_blocks_trace).
Proof. vm_compute. reflexivity. Qed.

(** C5. If a raw read of a filtered read fails, it is the last one: [Read]
    stops there, with nothing after it but the release of the lock, and
    returns that error along with zeros in place of x, y and z. The reads
    before it succeeded, and there were fewer than 10 of them. *)
Theorem Read_aborts_on_bus_error {W : Type} `{Connection W}
    (q : QMC5883LDriver) (w w' : W) (x y z : float) (err : option error)
    (t : list event) (i : nat) (data : list byte) (e : error) :
  Read q w = (x, y, z, err, w', t) ->
  raw_reads t !! i = Some (data, Some e) ->
  length (raw_reads t) = S i /\
  (i < 10)%nat /\
  (exists pre, t = pre ++ [EvReadBlockData qmc5883lRegX data (Some e); EvUnlock]) /\
  (forall j r, (j < i)%nat -> raw_reads t !! j = Some r -> r.2 = None) /\
  err = Some e /\
  x = 0%float /\ y = 0%float /\ z = 0%float.
Proof.
  intros Hrun Hi.
  destruct (Read_run q w) as (blocks & w1 & Hall & [[Hn Hread] | (data' & e' & Hn & Hread)]);
    rewrite Hread in Hrun; injection Hrun as Hx Hy Hz Herr _ Ht; subst t.
  - exfalso. rewrite raw_reads_success in Hi.
    rewrite list_lookup_fmap in Hi.
    destruct (blocks !! i); discriminate Hi.
  - rewrite raw_reads_failure in *.
    assert (Hlen : length (map (fun d : list byte => (d, @None error)) blocks) = length blocks)
      by apply length_map.
    assert (Hpos : i = length blocks).
    { destruct (Nat.lt_ge_cases i (length blocks)) as [Hlt | Hge].
      - rewrite lookup_app_l in Hi by lia.
        rewrite list_lookup_fmap in Hi.
        destruct (blocks !! i); discriminate Hi.
      - apply lookup_lt_Some in Hi. rewrite length_app in Hi. simpl in Hi. lia. }
    subst i.
    rewrite lookup_app_r in Hi by lia.
    rewrite Hlen, Nat.sub_diag in Hi. injection Hi as Hd He. subst data' e'.
    split; [rewrite length_app; simpl; lia |].
    split; [exact Hn |].
    split.
    { exists (EvLock :: ok_events blocks).
      simpl. rewrite <- app_assoc. reflexivity. }
    split.
    { intros j r Hj Hr. rewrite lookup_app_l in Hr by lia.
      rewrite list_lookup_fmap in Hr.
      destruct (blocks !! j); [injection Hr as <-; reflexivity | discriminate Hr]. }
    auto.
Qed.

Lemma Read_aborts_on_bus_error_witness :
  Read default_driver fails_at_fourth
  = (0%float, 0%float, 0%float, Some bus_down,
     mkScript (repeat (block_mixed, None) 6) [], fails_at_fourth_trace) /\
  raw_reads fails_at_fourth_trace !! 3%nat = Some (make_bytes 6, Some bus_down) /\
  length (raw_reads fails_at_fourth_trace) = 4%nat /\
  (3 < 10)%nat /\
  (exists pre,
     fails_at_fourth_trace
     = pre ++ [EvReadBlockData qmc5883lRegX (make_bytes 6) (Some bus_down); EvUnlock]) /\
  (forall j r, (j < 3)%nat -> raw_reads fails_at_fourth_trace !! j = Some r -> r.2 = None) /\
  Some bus_down = Some bus_down /\
  0%float = 0%float /\ 0%float = 0%float /\ 0%float = 0%float.
Proof.
  assert (Hrun : Read default_driver fails_at_fourth
                 = (0%float, 0%float, 0%float, Some bus_down,
                    mkScript (repeat (block_mixed, None) 6) [], fails_at_fourth_trace)).
  { vm_compute. reflexivity. }
  assert (Hfail : raw_reads fails_at_fourth_trace !! 3%nat
                  = Some (make_bytes 6, Some bus_down)).
  { vm_compute. reflexivity. }
  split; [exact Hrun |]. split; [exact Hfail |].
  exact (Read_aborts_on_bus_error default_driver fails_at_fourth _ _ _ _ _ _ _ _ _ Hrun Hfail).
Defined.

(** C9. In a filtered read that completes, every raw value lies in
    [-32768, 32767], and on each axis the [int32] sum after any number of
    the 10 samples is their sum in [Z], which lies in the [int32] range:
    no addition wraps. The value returned is therefore the exact sum of the
    10 samples, converted to [float64] and divided by 10, divided by the
    scale. *)
Theorem Read_sums_do_not_overflow {W : Type} `{Connection W}
    (q : QMC5883LDriver) (w w' : W) (x y z : float) (t : list event) :
  Read q w = (x, y, z, None, w', t) ->
  (length (samples_x t) = 10%nat /\
   length (samples_y t) = 10%nat /\
   length (samples_z t) = 10%nat) /\
  (Forall Int.in_int16 (samples_x t) /\
   Forall Int.in_int16 (samples_y t) /\
   Forall Int.in_int16 (samples_z t)) /\
  (forall k : nat,
     (acc32 (firstn k (samples_x t)) 0 = Zsum (firstn k (samples_x t)) /\
      Int.in_int32 (Zsum (firstn k (samples_x t)))) /\
     (acc32 (firstn k (samples_y t)) 0 = Zsum (firstn k (samples_y t)) /\
      Int.in_int32 (Zsum (firstn k (samples_y t)))) /\
     (acc32 (firstn k (samples_z t)) 0 = Zsum (firstn k (samples_z t)) /\
      Int.in_int32 (Zsum (firstn k (samples_z t))))) /\
  x = PrimFloat.div (PrimFloat.div (Float64.of_int32 (Zsum (samples_x t))) 10)
                    (scale_of (rng q)) /\
  y = PrimFloat.div (PrimFloat.div (Float64.of_int32 (Zsum (samples_y t))) 10)
                    (scale_of (rng q)) /\
  z = PrimFloat.div (PrimFloat.div (Float64.of_int32 (Zsum (samples_z t))) 10)
                    (scale_of (rng q)).
Proof.
  intros Hrun.
  destruct (Read_run q w) as (blocks & w1 & Hall & [[Hn Hread] | (data & e & Hn & Hread)]);
    rewrite Hread in Hrun; [| discriminate Hrun].
  injection Hrun as Hx Hy Hz _ Ht; subst t.
  unfold samples_x, samples_y, samples_z.
  rewrite raw_reads_success, !map_sample_reads, !length_map.
  destruct (samples_in_int16 blocks) as (Hix & Hiy & Hiz).
  assert (Hpre : forall (xs : list Z) (k : nat),
             Forall Int.in_int16 xs -> length xs = 10%nat ->
             acc32 (firstn k xs) 0 = Zsum (firstn k xs) /\
             Int.in_int32 (Zsum (firstn k xs))).
  { intros xs k Hxs Hlen. apply acc32_ten.
    - apply Forall_take. exact Hxs.
    - rewrite length_firstn. lia. }
  split; [auto |]. split; [auto |].
  split.
  { intros k. repeat split; apply Hpre; rewrite ?length_map; assumption. }
  destruct (acc32_ten (map sample_x blocks) Hix) as [Hsx _];
    [rewrite length_map; lia |].
  destruct (acc32_ten (map sample_y blocks) Hiy) as [Hsy _];
    [rewrite length_map; lia |].
  destruct (acc32_ten (map sample_z blocks) Hiz) as [Hsz _];
    [rewrite length_map; lia |].
  rewrite Hsx in Hx. rewrite Hsy in Hy. rewrite Hsz in Hz.
  auto.
Qed.

Lemma Read_sums_do_not_overflow_witness :
  Read default_driver ten_blocks
  = (1%float, 0%float, 0%float, None, mkScript [] [], ten_blocks_trace) /\
  (length (samples_x ten_blocks_trace) = 10%nat /\
   length (samples_y ten_blocks_trace) = 10%nat /\
   length (samples_z ten_blocks_trace) = 10%nat) /\
  (Forall Int.in_int16 (samples_x ten_blocks_trace) /\
   Forall Int.in_int16 (samples_y ten_blocks_trace) /\
   Forall Int.in_int16 (samples_z ten_blocks_trace)) /\
  (forall k : nat,
     (acc32 (firstn k (samples_x ten_blocks_trace)) 0
      = Zsum (firstn k (samples_x ten_blocks_trace)) /\
      Int.in_int32 (Zsum (firstn k (samples_x ten_blocks_trace)))) /\
     (acc32 (firstn k (samples_y ten_blocks_trace)) 0
      = Zsum (firstn k (samples_y ten_blocks_trace)) /\
      Int.in_int32 (Zsum (firstn k (samples_y ten_blocks_trace)))) /\
     (acc32 (firstn k (samples_z ten_blocks_trace)) 0
      = Zsum (firstn k (samples_z ten_blocks_trace)) /\
      Int.in_int32 (Zsum (firstn k (samples_z ten_blocks_trace))))) /\
  1%float
  = PrimFloat.div (PrimFloat.div (Float64.of_int32 (Zsum (samples_x ten_blocks_trace))) 10)
                  (scale_of (rng default_driver)) /\
  0%float
  = PrimFloat.div (PrimFloat.div (Float64.of_int32 (Zsum (samples_y ten_blocks_trace))) 10)
                  (scale_of (rng default_driver)) /\
  0%float
  = PrimFloat.div (PrimFloat.div (Float64.of_int32 (Zsum (samples_z ten_blocks_trace))) 10)
                  (scale_of (rng default_driver)).
Proof.
  assert (Hrun : Read default_driver ten_blocks
                 = (1%float, 0%float, 0%float, None, mkScript [] [], ten_blocks_trace)).
  { vm_compute. reflexivity. }
  split; [exact Hrun |].
  exact (Read_sums_do_not_overflow default_driver ten_blocks _ _ _ _ _ Hrun).
Defined.

(** The accumulation does wrap where the sum leaves the [int32] range; ten
    samples, even all at one end of the [int16] range, stay far from it. *)
Example add32_wraps : Int.add32 2147483647 (Int.int32 1) = -2147483648.
Proof. reflexivity. Qed.

Example acc32_ten_lowest : acc32 (repeat (-32768) 10) 0 = -327680.
Proof. reflexivity. Qed.

Example acc32_ten_highest : acc32 (repeat 32767 10) 0 = 327670.
Proof. reflexivity. Qed.

(** ** The initialization sequence *)

(** C2. Whatever the configuration and the bus, [initialize] is determined
    by the answers of the bus to its writes, which it issues in this order.
    It first writes 0x80 (soft reset) to control register 2 (0x0A); if that
    write fails it returns its error and calls the bus no more. Otherwise it
    pauses 5 ms and writes mode | odrBits | rngBits | osrBits to control
    register 1 (0x09), on the bus as the first write left it; if that write
    fails it returns its error and calls the bus no more. Otherwise it
    writes 0x40 (roll-over) to control register 2, on the bus as the second
    write left it, and returns what that write returns. The bus is left as
    the last write issued left it, and nothing else is done to it. *)
Theorem initialize_sequence {W : Type} `{Connection W} (q : QMC5883LDriver) (w : W) :
  let ctrl1 :=
    Z.lor (Z.lor (Z.lor (mode q) (default 0 (qmc5883lODRBits !! odr q)))
                 (default 0 (qmc5883lRNGBits !! rng q)))
          (osr q) in
  initialize q w =
    match WriteByteData 0x0A 0x80 w with
    | (w1, Some e1) =>
        (Some e1, w1, [EvWriteByteData 0x0A 0x80 (Some e1)])
    | (w1, None) =>
        match WriteByteData 0x09 ctrl1 w1 with
        | (w2, Some e2) =>
            (Some e2, w2,
             [EvWriteByteData 0x0A 0x80 None; EvSleep 5;
              EvWriteByteData 0x09 ctrl1 (Some e2)])
        | (w2, None) =>
            match WriteByteData 0x0A 0x40 w2 with
            | (w3, r3) =>
                (r3, w3,
                 [EvWriteByteData 0x0A 0x80 None; EvSleep 5;
                  EvWriteByteData 0x09 ctrl1 None;
                  EvWriteByteData 0x0A 0x40 r3])
            end
        end
    end.
Proof.
  intros ctrl1.
  unfold initialize, writeByteData, Sleep, emit, mbind, M_bind, mret, M_ret.
  change (ctrl1_of q) with ctrl1.
  change qmc5883lRegCtrl2 with 0x0A. change qmc5883lRegCtrl1 with 0x09.
  change qmc5883lCtrl2_SOFT_RST with 0x80.
  change (Int.uint8 qmc5883lCtrl2_ROL_PNT) with 0x40.
  destruct (WriteByteData 0x0A 0x80 w) as [w1 [e1 |]].
  - (* the reset fails *)
    reflexivity.
  - destruct (WriteByteData 0x09 ctrl1 w1) as [w2 [e2 |]].
    + (* the write of control register 1 fails *)
      reflexivity.
    + destruct (WriteByteData 0x0A 0x40 w2) as [w3 r3].
      reflexivity.
Qed.

(** On the default configuration control register 1 receives 0x05
    (continuous, 50 Hz, 2 Gauss, oversampling 512), and a failing reset
    keeps the two other writes from the bus. *)
Example initialize_default_ok :
  initialize default_driver (mkScript [] [None; None; None])
  = (None, mkScript [] [],
     [EvWriteByteData 0x0A 0x80 None; EvSleep 5;
      EvWriteByteData 0x09 0x05 None; EvWriteByteData 0x0A 0x40 None]).
Proof. reflexivity. Qed.

Example initialize_ctrl1_fails :
  initialize default_driver (mkScript [] [None; Some bus_down; None])
  = (Some bus_down, mkScript [] [None],
     [EvWriteByteData 0x0A 0x80 None; EvSleep 5;
      EvWriteByteData 0x09 0x05 (Some bus_down)]).
Proof. reflexivity. Qed.

Example initialize_reset_fails :
  initialize default_driver (mkScript [] [Some bus_down; None; None])
  = (Some bus_down, mkScript [] [None; None],
     [EvWriteByteData 0x0A 0x80 (Some bus_down)]).
Proof. reflexivity. Qed.

(** ** Validation *)

Lemma collect_keys (l acc : list Z) :
  fold_left (fun keys k => keys ++ [k]) l acc = acc ++ l.
Proof.
  revert acc. induction l as [| k l IH]; intros acc; simpl.
  - symmetry. apply app_nil_r.
  - rewrite IH, <- app_assoc. reflexivity.
Qed.

(** Sorting makes the keys collected by a [range] loop independent of the
    order of the visit. *)
Lemma sorted_range_keys (range_keys : gmap Z Z -> list Z) (m : gmap Z Z) :
  range_keys_spec range_keys ->
  sort_Ints (fold_left (fun keys k => keys ++ [k]) (range_keys m) [])
  = sort_Ints (map_to_list m).*1.
Proof.
  intros Hspec. rewrite collect_keys. simpl. unfold sort_Ints.
  apply (StronglySorted_unique Z.le).
  - apply StronglySorted_merge_sort; apply _.
  - apply StronglySorted_merge_sort; apply _.
  - rewrite !merge_sort_Permutation. apply Hspec.
Qed.

Lemma backwards_spec : range_keys_spec backwards.
Proof. intros m. unfold backwards. apply reverse_Permutation. Qed.

Lemma table_lookup_None (l : list (Z * Z)) (k : Z) :
  ~ In k l.*1 -> (list_to_map l : gmap Z Z) !! k = None.
Proof.
  intros Hk. apply not_elem_of_list_to_map_1. rewrite list_elem_of_In. exact Hk.
Qed.

(** C3. Each validator accepts exactly the keys of its table: 10, 50, 100,
    200 for the output data rate, 2 and 8 for the range, 512, 256, 128, 64
    for the oversampling ratio, and the table gives each of them its
    documented bit pattern. Any other value is refused with a message that
    lists the legal values in increasing order, whatever the order in which
    the map is visited. *)
Theorem validators_spec (range_keys : gmap Z Z -> list Z) :
  range_keys_spec range_keys ->
  ((forall odr, In odr [10; 50; 100; 200] -> qmc5883lValidateODR range_keys odr = None) /\
   (forall odr, ~ In odr [10; 50; 100; 200] ->
      qmc5883lValidateODR range_keys odr
      = Some "ODR must be one of: [10 50 100 200]"%string) /\
   qmc5883lODRBits !! 10 = Some 0x00 /\ qmc5883lODRBits !! 50 = Some 0x04 /\
   qmc5883lODRBits !! 100 = Some 0x08 /\ qmc5883lODRBits !! 200 = Some 0x0C) /\
  ((forall rng, In rng [2; 8] -> qmc5883lValidateRNG range_keys rng = None) /\
   (forall rng, ~ In rng [2; 8] ->
      qmc5883lValidateRNG range_keys rng = Some "RNG must be one of: [2 8]"%string) /\
   qmc5883lRNGBits !! 2 = Some 0x00 /\ qmc5883lRNGBits !! 8 = Some 0x10) /\
  ((forall osr, In osr [512; 256; 128; 64] -> qmc5883lValidateOSR range_keys osr = None) /\
   (forall osr, ~ In osr [512; 256; 128; 64] ->
      qmc5883lValidateOSR range_keys osr
      = Some "OSR must be one of: [64 128 256 512]"%string) /\
   qmc5883lOSRBits !! 512 = Some 0x00 /\ qmc5883lOSRBits !! 256 = Some 0x40 /\
   qmc5883lOSRBits !! 128 = Some 0x80 /\ qmc5883lOSRBits !! 64 = Some 0xC0).
Proof.
  intros Hspec.
  split; [| split].
  - split; [| split; [| repeat split]].
    + intros odr Hin. simpl in Hin.
      destruct Hin as [<- | [<- | [<- | [<- | []]]]]; reflexivity.
    + intros odr Hout. unfold qmc5883lValidateODR.
      rewrite (sorted_range_keys range_keys _ Hspec).
      unfold qmc5883lODRBits at 1. rewrite table_lookup_None by exact Hout.
      reflexivity.
  - split; [| split; [| repeat split]].
    + intros rng Hin. simpl in Hin.
      destruct Hin as [<- | [<- | []]]; reflexivity.
    + intros rng Hout. unfold qmc5883lValidateRNG.
      rewrite (sorted_range_keys range_keys _ Hspec).
      unfold qmc5883lRNGBits at 1. rewrite table_lookup_None by exact Hout.
      reflexivity.
  - split; [| split; [| repeat split]].
    + intros osr Hin. simpl in Hin.
      destruct Hin as [<- | [<- | [<- | [<- | []]]]]; reflexivity.
    + intros osr Hout. unfold qmc5883lValidateOSR.
      rewrite (sorted_range_keys range_keys _ Hspec).
      unfold qmc5883lOSRBits at 1. rewrite table_lookup_None by exact Hout.
      reflexivity.
Qed.

Lemma validators_spec_witness :
  range_keys_spec backwards /\
  qmc5883lValidateODR backwards 100 = None /\
  qmc5883lValidateODR backwards 25
  = Some "ODR must be one of: [10 50 100 200]"%string /\
  qmc5883lValidateRNG backwards 8 = None /\
  qmc5883lValidateRNG backwards 4 = Some "RNG must be one of: [2 8]"%string /\
  qmc5883lValidateOSR backwards 64 = None /\
  qmc5883lValidateOSR backwards 1024
  = Some "OSR must be one of: [64 128 256 512]"%string.
Proof.
  split; [exact backwards_spec |].
  destruct (validators_spec backwards backwards_spec)
    as ((Ho1 & Ho2 & _) & (Hr1 & Hr2 & _) & (Hs1 & Hs2 & _)).
  split; [apply Ho1; simpl; lia |].
  split; [apply Ho2; simpl; lia |].
  split; [apply Hr1; simpl; lia |].
  split; [apply Hr2; simpl; lia |].
  split; [apply Hs1; simpl; lia |].
  apply Hs2; simpl; lia.
Defined.

(** ** The option setters *)

Lemma validate_ODR_cases (range_keys : gmap Z Z -> list Z) (val : Z) :
  (In val [10; 50; 100; 200] /\ qmc5883lValidateODR range_keys val = None) \/
  (~ In val [10; 50; 100; 200] /\ exists err, qmc5883lValidateODR range_keys val = Some err).
Proof.
  destruct (in_dec Z.eq_dec val [10; 50; 100; 200]) as [Hin | Hout].
  - left. split; [exact Hin |]. simpl in Hin.
    destruct Hin as [<- | [<- | [<- | [<- | []]]]]; reflexivity.
  - right. split; [exact Hout |]. unfold qmc5883lValidateODR.
    unfold qmc5883lODRBits at 1. rewrite table_lookup_None by exact Hout. eauto.
Qed.

Lemma validate_RNG_cases (range_keys : gmap Z Z -> list Z) (val : Z) :
  (In val [2; 8] /\ qmc5883lValidateRNG range_keys val = None) \/
  (~ In val [2; 8] /\ exists err, qmc5883lValidateRNG range_keys val = Some err).
Proof.
  destruct (in_dec Z.eq_dec val [2; 8]) as [Hin | Hout].
  - left. split; [exact Hin |]. simpl in Hin.
    destruct Hin as [<- | [<- | []]]; reflexivity.
  - right. split; [exact Hout |]. unfold qmc5883lValidateRNG.
    unfold qmc5883lRNGBits at 1. rewrite table_lookup_None by exact Hout. eauto.
Qed.

Lemma validate_OSR_cases (range_keys : gmap Z Z -> list Z) (val : Z) :
  (In val [512; 256; 128; 64] /\ qmc5883lValidateOSR range_keys val = None /\
   In (val, map_index qmc5883lOSRBits val) [(512, 0x00); (256, 0x40); (128, 0x80); (64, 0xC0)])
  \/
  (~ In val [512; 256; 128; 64] /\ exists err, qmc5883lValidateOSR range_keys val = Some err).
Proof.
  destruct (in_dec Z.eq_dec val [512; 256; 128; 64]) as [Hin | Hout].
  - left. split; [exact Hin |]. simpl in Hin.
    destruct Hin as [<- | [<- | [<- | [<- | []]]]];
      (split; [reflexivity | simpl; auto 6]).
  - right. split; [exact Hout |]. unfold qmc5883lValidateOSR.
    unfold qmc5883lOSRBits at 1. rewrite table_lookup_None by exact Hout. eauto.
Qed.

(** C6. Applied to a QMC5883L driver, each setter either updates its one
    field and returns, or panics and leaves the driver as it was. On a legal
    value (10, 50, 100, 200 for ODR; 2, 8 for the range; 512, 256, 128, 64
    for OSR) the field takes the value, the [osr] field taking not the
    ratio but its bit pattern (0x00, 0x40, 0x80, 0xC0 in that order), and
    the other fields are kept. On any other value the setter panics with
    the error of its validator, and the driver is unchanged. *)
Theorem setters_fail_fast (range_keys : gmap Z Z -> list Z) (d : QMC5883LDriver) (val : Z) :
  ((In val [10; 50; 100; 200] ->
      WithQMC5883LODR range_keys val (IsQMC5883L d)
      = (IsQMC5883L (mkQMC5883LDriver (driver d) val (rng d) (osr d) (mode d)), None)) /\
   (~ In val [10; 50; 100; 200] ->
      exists err,
        qmc5883lValidateODR range_keys val = Some err /\
        WithQMC5883LODR range_keys val (IsQMC5883L d) = (IsQMC5883L d, Some err))) /\
  ((In val [2; 8] ->
      WithQMC5883LRNG range_keys val (IsQMC5883L d)
      = (IsQMC5883L (mkQMC5883LDriver (driver d) (odr d) val (osr d) (mode d)), None)) /\
   (~ In val [2; 8] ->
      exists err,
        qmc5883lValidateRNG range_keys val = Some err /\
        WithQMC5883LRNG range_keys val (IsQMC5883L d) = (IsQMC5883L d, Some err))) /\
  ((In val [512; 256; 128; 64] ->
      exists bits,
        In (val, bits) [(512, 0x00); (256, 0x40); (128, 0x80); (64, 0xC0)] /\
        WithQMC5883LOSR range_keys val (IsQMC5883L d)
        = (IsQMC5883L (mkQMC5883LDriver (driver d) (odr d) (rng d) bits (mode d)), None)) /\
   (~ In val [512; 256; 128; 64] ->
      exists err,
        qmc5883lValidateOSR range_keys val = Some err /\
        WithQMC5883LOSR range_keys val (IsQMC5883L d) = (IsQMC5883L d, Some err))).
Proof.
  split; [| split].
  - destruct (validate_ODR_cases range_keys val) as [[Hin Hv] | [Hout [err Hv]]];
      (split; [intros Hin' | intros Hout']); try contradiction.
    + unfold WithQMC5883LODR. rewrite Hv. reflexivity.
    + exists err. split; [exact Hv |]. unfold WithQMC5883LODR. rewrite Hv. reflexivity.
  - destruct (validate_RNG_cases range_keys val) as [[Hin Hv] | [Hout [err Hv]]];
      (split; [intros Hin' | intros Hout']); try contradiction.
    + unfold WithQMC5883LRNG. rewrite Hv. reflexivity.
    + exists err. split; [exact Hv |]. unfold WithQMC5883LRNG. rewrite Hv. reflexivity.
  - destruct (validate_OSR_cases range_keys val) as [(Hin & Hv & Hbits) | [Hout [err Hv]]];
      (split; [intros Hin' | intros Hout']); try contradiction.
    + exists (map_index qmc5883lOSRBits val). split; [exact Hbits |].
      unfold WithQMC5883LOSR. rewrite Hv. reflexivity.
    + exists err. split; [exact Hv |]. unfold WithQMC5883LOSR. rewrite Hv. reflexivity.
Qed.

(** A legal and an illegal ratio on the default driver. The pattern of the
    ratio 128 is 0x80, the same number. *)
Example WithQMC5883LOSR_128 :
  WithQMC5883LOSR backwards 128 (IsQMC5883L default_driver)
  = (IsQMC5883L (mkQMC5883LDriver (driver default_driver) 50 2 0x80 1), None).
Proof. reflexivity. Qed.

Example WithQMC5883LOSR_100 :
  WithQMC5883LOSR backwards 100 (IsQMC5883L default_driver)
  = (IsQMC5883L default_driver, Some "OSR must be one of: [64 128 256 512]"%string).
Proof. vm_compute. reflexivity. Qed.

Example WithQMC5883LOSR_256 :
  WithQMC5883LOSR backwards 256 (IsQMC5883L default_driver)
  = (IsQMC5883L (mkQMC5883LDriver (driver default_driver) 50 2 0x40 1), None).
Proof. reflexivity. Qed.

(** ** The constructor *)

Lemma exposed_option_preserves (range_keys : gmap Z Z -> list Z)
    (option : Option) (c c' : Config) :
  exposed_option range_keys option ->
  well_configured c ->
  option c = (c', None) ->
  well_configured c'.
Proof.
  intros Hexp (q & -> & Hmode & Hosr) Hrun.
  destruct Hexp as [val | val | val].
  - unfold WithQMC5883LODR in Hrun.
    destruct (qmc5883lValidateODR range_keys val); [discriminate |].
    injection Hrun as <-. exists (mkQMC5883LDriver (driver q) val (rng q) (osr q) (mode q)).
    auto.
  - unfold WithQMC5883LRNG in Hrun.
    destruct (qmc5883lValidateRNG range_keys val); [discriminate |].
    injection Hrun as <-. exists (mkQMC5883LDriver (driver q) (odr q) val (osr q) (mode q)).
    auto.
  - unfold WithQMC5883LOSR in Hrun.
    destruct (validate_OSR_cases range_keys val) as [(Hin & Hv & Hbits) | [Hout [err Hv]]];
      rewrite Hv in Hrun; [| discriminate].
    injection Hrun as <-.
    exists (mkQMC5883LDriver (driver q) (odr q) (rng q)
              (map_index qmc5883lOSRBits val) (mode q)).
    split; [reflexivity |]. split; [exact Hmode |].
    simpl in Hbits |- *.
    destruct Hbits as [Hb | [Hb | [Hb | [Hb | []]]]];
      injection Hb as _ <-; auto.
Qed.

Lemma apply_options_preserves (range_keys : gmap Z Z -> list Z) (options : list Option) :
  forall c c' : Config,
    Forall (exposed_option range_keys) options ->
    well_configured c ->
    apply_options options c = (c', None) ->
    well_configured c'.
Proof.
  induction options as [| option options IH]; intros c c' Hall Hc Hrun.
  - injection Hrun as <-. exact Hc.
  - inversion Hall as [| ? ? Hexp Hrest]; subst.
    cbn [apply_options] in Hrun.
    destruct (option c) as [c1 [err |]] eqn:Hopt; [discriminate |].
    apply (IH c1 c' Hrest); [| exact Hrun].
    exact (exposed_option_preserves range_keys option c c1 Hexp Hc Hopt).
Qed.

(** The bits a table can give are clear of the two mode bits. *)
Lemma table_bits_clear_of_mode (l : list (Z * Z)) (k : Z) :
  Forall (fun kv : Z * Z => Z.land kv.2 0x03 = 0) l ->
  Z.land (map_index (list_to_map l) k) 0x03 = 0.
Proof.
  intros Hall. unfold map_index.
  destruct ((list_to_map l : gmap Z Z) !! k) as [v |] eqn:Hk; [| reflexivity].
  apply elem_of_list_to_map_2 in Hk.
  rewrite Forall_forall in Hall. exact (Hall (k, v) Hk).
Qed.

Lemma ctrl1_mode_bits (q : QMC5883LDriver) :
  mode q = 0x01 -> In (osr q) [0x00; 0x40; 0x80; 0xC0] ->
  Z.land (ctrl1_of q) 0x03 = 0x01.
Proof.
  intros Hmode Hosr. unfold ctrl1_of.
  rewrite !Z.land_lor_distr_l.
  unfold qmc5883lODRBits, qmc5883lRNGBits.
  rewrite !table_bits_clear_of_mode by (repeat constructor).
  rewrite Hmode. simpl in Hosr.
  destruct Hosr as [<- | [<- | [<- | [<- | []]]]]; reflexivity.
Qed.

Section InitializeFacts.

Context {W : Type} `{Connection W}.

(** The only write [initialize] can make to control register 1 is that of
    [ctrl1_of q]. *)
Lemma initialize_ctrl1_write (q : QMC5883LDriver) (w w' : W) (r : option error)
    (t : list event) (reg val : Z) (e : option error) :
  initialize q w = (r, w', t) ->
  In (reg, val, e) (byte_writes t) ->
  reg = 0x09 ->
  val = ctrl1_of q.
Proof.
  unfold initialize, writeByteData, Sleep, emit, mbind, M_bind, mret, M_ret.
  change qmc5883lRegCtrl2 with 0x0A. change qmc5883lRegCtrl1 with 0x09.
  destruct (WriteByteData 0x0A qmc5883lCtrl2_SOFT_RST w) as [w1 [e1 |]].
  { intros [= _ _ <-] Hin Hreg. simpl in Hin. intuition congruence. }
  destruct (WriteByteData 0x09 (ctrl1_of q) w1) as [w2 [e2 |]].
  { intros [= _ _ <-] Hin Hreg. simpl in Hin. intuition congruence. }
  destruct (WriteByteData 0x0A (Int.uint8 qmc5883lCtrl2_ROL_PNT) w2) as [w3 e3].
  intros [= _ _ <-] Hin Hreg. simpl in Hin. intuition congruence.
Qed.

End InitializeFacts.

(** C10. A driver that the constructor returns, whatever exposed options
    it was given, has its mode field equal to 0x01 (continuous). The byte
    that [initialize] then writes to control register 1 has 0x01 in its two
    mode bits, on every run that gets as far as that write. *)
Theorem constructor_mode_continuous (range_keys : gmap Z Z -> list Z)
    (options : list Option) (c : Config) :
  Forall (exposed_option range_keys) options ->
  NewQMC5883LDriver options = (c, None) ->
  exists q : QMC5883LDriver,
    c = IsQMC5883L q /\
    mode q = qmc5883lCtrl1_Mode_Continuous /\
    mode q = 0x01 /\
    Z.land (ctrl1_of q) 0x03 = 0x01 /\
    forall (W : Type) (conn : Connection W) (w w' : W) (r : option error)
           (t : list event) (reg val : Z) (e : option error),
      initialize q w = (r, w', t) ->
      In (reg, val, e) (byte_writes t) ->
      reg = 0x09 ->
      val = ctrl1_of q /\ Z.land val 0x03 = 0x01.
Proof.
  intros Hall Hnew.
  assert (Hwc : well_configured c).
  { unfold NewQMC5883LDriver in Hnew.
    eapply (apply_options_preserves range_keys options _ c Hall); [| exact Hnew].
    eexists. split; [reflexivity |]. split; [reflexivity |]. simpl. auto. }
  destruct Hwc as (q & -> & Hmode & Hosr).
  pose proof (ctrl1_mode_bits q Hmode Hosr) as Hbits.
  exists q. split; [reflexivity |]. split; [exact Hmode |]. split; [exact Hmode |].
  split; [exact Hbits |].
  intros W conn w w' r t reg val e Hrun Hin Hreg.
  assert (Hval : val = ctrl1_of q)
    by exact (initialize_ctrl1_write q w w' r t reg val e Hrun Hin Hreg).
  split; [exact Hval |]. rewrite Hval. exact Hbits.
Qed.

Lemma constructor_mode_continuous_witness :
  Forall (exposed_option backwards) three_options /\
  NewQMC5883LDriver three_options = (IsQMC5883L three_options_driver, None) /\
  exists q : QMC5883LDriver,
    IsQMC5883L three_options_driver = IsQMC5883L q /\
    mode q = qmc5883lCtrl1_Mode_Continuous /\
    mode q = 0x01 /\
    Z.land (ctrl1_of q) 0x03 = 0x01 /\
    forall (W : Type) (conn : Connection W) (w w' : W) (r : option error)
           (t : list event) (reg val : Z) (e : option error),
      initialize q w = (r, w', t) ->
      In (reg, val, e) (byte_writes t) ->
      reg = 0x09 ->
      val = ctrl1_of q /\ Z.land val 0x03 = 0x01.
Proof.
  assert (Hexp : Forall (exposed_option backwards) three_options).
  { repeat constructor. }
  assert (Hnew : NewQMC5883LDriver three_options = (IsQMC5883L three_options_driver, None)).
  { vm_compute. reflexivity. }
  split; [exact Hexp |]. split; [exact Hnew |].
  exact (constructor_mode_continuous backwards three_options
           (IsQMC5883L three_options_driver) Hexp Hnew).
Defined.

(** With these three options control register 1 receives 0xDD. *)
Example initialize_three_options :
  initialize three_options_driver (mkScript [] [None; None; None])
  = (None, mkScript [] [],
     [EvWriteByteData 0x0A 0x80 None; EvSleep 5;
      EvWriteByteData 0x09 0xDD None; EvWriteByteData 0x0A 0x40 None]).
Proof. reflexivity. Qed.

(** An illegal option makes the constructor panic. *)
Example constructor_panics :
  NewQMC5883LDriver [WithQMC5883LRNG backwards 8; WithQMC5883LODR backwards 25]
  = (IsQMC5883L (mkQMC5883LDriver (NewDriver "QMC5883L" qmc5883lDefaultAddress) 50 8 0 1),
     Some "ODR must be one of: [10 50 100 200]"%string).
Proof. vm_compute. reflexivity. Qed.

(** ** Heading *)

Section HeadingFacts.

Context {W : Type} `{Connection W}.

Variable Atan2 : float -> float -> float.

(** An error of the filtered read is returned as it is, with heading 0. *)
Lemma Heading_propagates_error (q : QMC5883LDriver) (w w' : W)
    (x y z : float) (e : error) (t : list event) :
  Read q w = (x, y, z, Some e, w', t) ->
  Heading Atan2 q w = (0%float, Some e, w', t).
Proof.
  intros Hread. unfold Heading. rewrite (bind_step _ _ _ _ _ _ Hread).
  cbn. rewrite app_nil_r. reflexivity.
Qed.

(** Otherwise the heading is the angle of (x, y) of that one read, in
    degrees. *)
Lemma Heading_of_Read (q : QMC5883LDriver) (w w' : W)
    (x y z : float) (t : list event) :
  Read q w = (x, y, z, None, w', t) ->
  Heading Atan2 q w = (to_degrees (Atan2 y x), None, w', t).
Proof.
  intros Hread. unfold Heading. rewrite (bind_step _ _ _ _ _ _ Hread).
  cbn. rewrite app_nil_r. reflexivity.
Qed.

End HeadingFacts.

(** The conversion at the four angles that [math.Atan2] documents for the
    axes: 0, Pi/2, Pi and -Pi/2. *)
Lemma to_degrees_axes :
  to_degrees 0 = 0%float /\
  to_degrees (PrimFloat.div Pi 2) = 90%float /\
  to_degrees Pi = 180%float /\
  to_degrees (PrimFloat.opp (PrimFloat.div Pi 2)) = 270%float.
Proof. repeat split; reflexivity. Qed.

(** The conversion alone does not keep its result under 360: a negative
    angle small enough is rounded up to 360 when 360 is added. *)
Lemma to_degrees_rounds_to_360 :
  to_degrees (PrimFloat.opp 0x1p-60%float) = 360%float.
Proof. reflexivity. Qed.

(** * Further properties of the driver *)

(** ** Options in sequence *)

Lemma last_cons {A : Type} (a d : A) (l : list A) : List.last (a :: l) d = List.last l a.
Proof.
  revert a d. induction l as [| b l IH]; intros a d; [reflexivity |].
  change (List.last (a :: b :: l) d) with (List.last (b :: l) d).
  rewrite !(IH b). reflexivity.
Qed.

Lemma apply_options_app (o1 o2 : list Option) :
  forall c : Config,
    apply_options (o1 ++ o2) c =
      match apply_options o1 c with
      | (c', None) => apply_options o2 c'
      | (c', Some err) => (c', Some err)
      end.
Proof.
  induction o1 as [| o o1 IH]; intros c; [reflexivity |].
  cbn [app apply_options]. destruct (o c) as [c1 [err |]]; [reflexivity | apply IH].
Qed.

(** A legal setting updates its field and returns. *)
Lemma option_of_legal (range_keys : gmap Z Z -> list Z) (s : setting) (d : QMC5883LDriver) :
  legal s ->
  option_of range_keys s (IsQMC5883L d) =
    (IsQMC5883L
       match s with
       | SetODR val => mkQMC5883LDriver (driver d) val (rng d) (osr d) (mode d)
       | SetRNG val => mkQMC5883LDriver (driver d) (odr d) val (osr d) (mode d)
       | SetOSR val =>
           mkQMC5883LDriver (driver d) (odr d) (rng d)
             (map_index qmc5883lOSRBits val) (mode d)
       end, None).
Proof.
  intros Hs. destruct s as [val | val | val]; simpl in Hs; cbn [option_of].
  - destruct (validate_ODR_cases range_keys val) as [[_ Hv] | [Hout _]]; [| contradiction].
    unfold WithQMC5883LODR. rewrite Hv. reflexivity.
  - destruct (validate_RNG_cases range_keys val) as [[_ Hv] | [Hout _]]; [| contradiction].
    unfold WithQMC5883LRNG. rewrite Hv. reflexivity.
  - destruct (validate_OSR_cases range_keys val) as [(_ & Hv & _) | [Hout _]]; [| contradiction].
    unfold WithQMC5883LOSR. rewrite Hv. reflexivity.
Qed.

(** An illegal setting panics and leaves the driver as it was. *)
Lemma option_of_illegal (range_keys : gmap Z Z -> list Z) (s : setting) (d : QMC5883LDriver) :
  ~ legal s ->
  exists err, option_of range_keys s (IsQMC5883L d) = (IsQMC5883L d, Some err).
Proof.
  intros Hs. destruct s as [val | val | val]; simpl in Hs; cbn [option_of].
  - destruct (validate_ODR_cases range_keys val) as [[Hin _] | [_ [err Hv]]]; [contradiction |].
    exists err. unfold WithQMC5883LODR. rewrite Hv. reflexivity.
  - destruct (validate_RNG_cases range_keys val) as [[Hin _] | [_ [err Hv]]]; [contradiction |].
    exists err. unfold WithQMC5883LRNG. rewrite Hv. reflexivity.
  - destruct (validate_OSR_cases range_keys val) as [(Hin & _) | [_ [err Hv]]]; [contradiction |].
    exists err. unfold WithQMC5883LOSR. rewrite Hv. reflexivity.
Qed.

Lemma apply_legal_settings (range_keys : gmap Z Z -> list Z) (ss : list setting) :
  forall d : QMC5883LDriver,
    Forall legal ss ->
    apply_options (map (option_of range_keys) ss) (IsQMC5883L d) =
      (IsQMC5883L
         (mkQMC5883LDriver (driver d)
            (List.last (odr_values ss) (odr d))
            (List.last (rng_values ss) (rng d))
            (List.last (map (map_index qmc5883lOSRBits) (osr_values ss)) (osr d))
            (mode d)), None).
Proof.
  induction ss as [| s ss IH]; intros d Hall.
  - destruct d; reflexivity.
  - inversion Hall as [| ? ? Hs Hss]; subst.
    cbn [map apply_options]. rewrite (option_of_legal range_keys s d Hs).
    rewrite (IH _ Hss).
    destruct s as [val | val | val]; cbn [odr_values rng_values osr_values flat_map app map
                                          driver odr rng osr mode];
      rewrite ?last_cons; reflexivity.
Qed.

Lemma last_map {A B : Type} (f : A -> B) (l : list A) (d : A) :
  List.last (map f l) (f d) = f (List.last l d).
Proof.
  revert d. induction l as [| a l IH]; intros d; [reflexivity |].
  cbn [map]. rewrite !last_cons. apply IH.
Qed.

(** X1. When every option given to the constructor is a setter with a
    legal value, the constructor returns, and each field of the driver holds
    the value of the last setter of that field in the list, or its default
    (50 Hz, 2 Gauss, ratio 512) when there is none; [osr] holds the bit
    pattern of that ratio, the mode stays 0x01, the name and address those of
    [NewDriver]. Setters of different fields thus commute, and an earlier
    setter of a field is overridden by a later one. *)
Theorem constructor_last_setting_wins (range_keys : gmap Z Z -> list Z) (ss : list setting) :
  Forall legal ss ->
  NewQMC5883LDriver (map (option_of range_keys) ss) =
    (IsQMC5883L
       (mkQMC5883LDriver
          (NewDriver "QMC5883L" 0x0D)
          (List.last (odr_values ss) 50)
          (List.last (rng_values ss) 2)
          (map_index qmc5883lOSRBits (List.last (osr_values ss) 512))
          0x01), None).
Proof.
  intros Hall. unfold NewQMC5883LDriver.
  rewrite (apply_legal_settings range_keys ss _ Hall).
  cbn [driver odr rng osr mode].
  rewrite (last_map (map_index qmc5883lOSRBits)). reflexivity.
Qed.

Lemma constructor_last_setting_wins_witness :
  Forall legal some_settings /\
  NewQMC5883LDriver (map (option_of backwards) some_settings) =
    (IsQMC5883L
       (mkQMC5883LDriver
          (NewDriver "QMC5883L" 0x0D)
          (List.last (odr_values some_settings) 50)
          (List.last (rng_values some_settings) 2)
          (map_index qmc5883lOSRBits (List.last (osr_values some_settings) 512))
          0x01), None).
Proof.
  assert (Hall : Forall legal some_settings).
  { unfold some_settings. repeat constructor; simpl; lia. }
  split; [exact Hall |].
  exact (constructor_last_setting_wins backwards some_settings Hall).
Defined.

(** X2. The constructor panics at the first option whose value is illegal:
    the panic carries the error that option raises on the driver built by
    the options before it, that driver is what the panic leaves behind, and
    the options after it have no effect. *)
Theorem constructor_panics_at_first_illegal (range_keys : gmap Z Z -> list Z)
    (pre post : list setting) (s : setting) :
  Forall legal pre ->
  ~ legal s ->
  exists (q : QMC5883LDriver) (err : error),
    NewQMC5883LDriver (map (option_of range_keys) pre) = (IsQMC5883L q, None) /\
    option_of range_keys s (IsQMC5883L q) = (IsQMC5883L q, Some err) /\
    NewQMC5883LDriver (map (option_of range_keys) (pre ++ s :: post))
    = (IsQMC5883L q, Some err).
Proof.
  intros Hpre Hs.
  pose proof (Hbuilt := apply_legal_settings range_keys pre).
  unfold NewQMC5883LDriver.
  set (q0 := mkQMC5883LDriver (NewDriver "QMC5883L" qmc5883lDefaultAddress) 50 2
               (map_index qmc5883lOSRBits 512) qmc5883lCtrl1_Mode_Continuous).
  specialize (Hbuilt q0 Hpre).
  set (q := mkQMC5883LDriver _ _ _ _ _) in Hbuilt.
  destruct (option_of_illegal range_keys s q Hs) as [err Herr].
  exists q, err. split; [exact Hbuilt |]. split; [exact Herr |].
  rewrite map_app, apply_options_app, Hbuilt.
  cbn [map apply_options]. rewrite Herr. reflexivity.
Qed.

Lemma constructor_panics_at_first_illegal_witness :
  Forall legal [SetRNG 8; SetODR 100] /\
  ~ legal (SetOSR 100) /\
  exists (q : QMC5883LDriver) (err : error),
    NewQMC5883LDriver (map (option_of backwards) [SetRNG 8; SetODR 100])
    = (IsQMC5883L q, None) /\
    option_of backwards (SetOSR 100) (IsQMC5883L q) = (IsQMC5883L q, Some err) /\
    NewQMC5883LDriver
      (map (option_of backwards) ([SetRNG 8; SetODR 100] ++ SetOSR 100 :: [SetODR 7]))
    = (IsQMC5883L q, Some err).
Proof.
  assert (Hpre : Forall legal [SetRNG 8; SetODR 100]).
  { repeat constructor; simpl; lia. }
  assert (Hs : ~ legal (SetOSR 100)).
  { simpl. lia. }
  split; [exact Hpre |]. split; [exact Hs |].
  exact (constructor_panics_at_first_illegal backwards _ [SetODR 7] _ Hpre Hs).
Defined.

(** ** What the constructor can build *)

Lemma exposed_option_well_formed (range_keys : gmap Z Z -> list Z)
    (option : Option) (q : QMC5883LDriver) (c : Config) :
  exposed_option range_keys option ->
  well_formed q ->
  option (IsQMC5883L q) = (c, None) ->
  exists q', c = IsQMC5883L q' /\ well_formed q'.
Proof.
  intros Hexp (Hdrv & Hodr & Hrng & Hosr & Hmode) Hrun.
  destruct Hexp as [val | val | val].
  - unfold WithQMC5883LODR in Hrun.
    destruct (validate_ODR_cases range_keys val) as [[Hin Hv] | [_ [err Hv]]];
      rewrite Hv in Hrun; [| discriminate].
    injection Hrun as <-. eexists. split; [reflexivity |].
    repeat split; assumption.
  - unfold WithQMC5883LRNG in Hrun.
    destruct (validate_RNG_cases range_keys val) as [[Hin Hv] | [_ [err Hv]]];
      rewrite Hv in Hrun; [| discriminate].
    injection Hrun as <-. eexists. split; [reflexivity |].
    repeat split; assumption.
  - unfold WithQMC5883LOSR in Hrun.
    destruct (validate_OSR_cases range_keys val) as [(Hin & Hv & Hbits) | [_ [err Hv]]];
      rewrite Hv in Hrun; [| discriminate].
    injection Hrun as <-. eexists. split; [reflexivity |].
    repeat split; try assumption.
    cbn [osr]. simpl in Hbits |- *.
    destruct Hbits as [Hb | [Hb | [Hb | [Hb | []]]]];
      injection Hb as _ <-; auto.
Qed.

Lemma apply_options_well_formed (range_keys : gmap Z Z -> list Z) (options : list Option) :
  forall (q : QMC5883LDriver) (c : Config),
    Forall (exposed_option range_keys) options ->
    well_formed q ->
    apply_options options (IsQMC5883L q) = (c, None) ->
    exists q', c = IsQMC5883L q' /\ well_formed q'.
Proof.
  induction options as [| option options IH]; intros q c Hall Hq Hrun.
  - injection Hrun as <-. exists q. split; [reflexivity | exact Hq].
  - inversion Hall as [| ? ? Hexp Hrest]; subst.
    cbn [apply_options] in Hrun.
    destruct (option (IsQMC5883L q)) as [c1 [err |]] eqn:Hopt; [discriminate |].
    destruct (exposed_option_well_formed range_keys option q c1 Hexp Hq Hopt)
      as (q1 & -> & Hq1).
    exact (IH q1 c Hrest Hq1 Hrun).
Qed.

(** X3. A driver that the constructor returns, whatever exposed options it
    was given, holds only validated values: an output data rate among 10,
    50, 100, 200, a range of 2 or 8, one of the four oversampling patterns
    in [osr], and mode 0x01. In particular [Read] scales such a driver's
    values by 12000 when its range is 2 and by 3000 otherwise, the range
    then being 8. *)
Theorem constructor_well_formed (range_keys : gmap Z Z -> list Z)
    (options : list Option) (c : Config) :
  Forall (exposed_option range_keys) options ->
  NewQMC5883LDriver options = (c, None) ->
  exists q : QMC5883LDriver,
    c = IsQMC5883L q /\
    In (odr q) [10; 50; 100; 200] /\
    In (rng q) [2; 8] /\
    In (osr q) [0x00; 0x40; 0x80; 0xC0] /\
    mode q = 0x01 /\
    ((rng q = 2 /\ scale_of (rng q) = 12000%float) \/
     (rng q = 8 /\ scale_of (rng q) = 3000%float)).
Proof.
  intros Hall Hnew. unfold NewQMC5883LDriver in Hnew.
  assert (Hq0 : well_formed
                  (mkQMC5883LDriver (NewDriver "QMC5883L" qmc5883lDefaultAddress) 50 2
                     (map_index qmc5883lOSRBits 512) qmc5883lCtrl1_Mode_Continuous)).
  { repeat split; simpl; auto. }
  destruct (apply_options_well_formed range_keys options _ c Hall Hq0 Hnew)
    as (q & -> & Hq).
  destruct Hq as (_ & Hodr & Hrng & Hosr & Hmode).
  exists q. repeat (split; [assumption || reflexivity |]).
  simpl in Hrng. destruct Hrng as [<- | [<- | []]]; [left | right]; split; reflexivity.
Qed.

Lemma constructor_well_formed_witness :
  Forall (exposed_option backwards) three_options /\
  NewQMC5883LDriver three_options = (IsQMC5883L three_options_driver, None) /\
  exists q : QMC5883LDriver,
    IsQMC5883L three_options_driver = IsQMC5883L q /\
    In (odr q) [10; 50; 100; 200] /\
    In (rng q) [2; 8] /\
    In (osr q) [0x00; 0x40; 0x80; 0xC0] /\
    mode q = 0x01 /\
    ((rng q = 2 /\ scale_of (rng q) = 12000%float) \/
     (rng q = 8 /\ scale_of (rng q) = 3000%float)).
Proof.
  assert (Hexp : Forall (exposed_option backwards) three_options).
  { repeat constructor. }
  assert (Hnew : NewQMC5883LDriver three_options = (IsQMC5883L three_options_driver, None)).
  { vm_compute. reflexivity. }
  split; [exact Hexp |]. split; [exact Hnew |].
  exact (constructor_well_formed backwards three_options _ Hexp Hnew).
Defined.

(** X4. The exposed options do nothing to an object that is not a QMC5883L
    driver: whatever their values, legal or not, no option of the list
    panics and the object is returned as it was. *)
Theorem options_ignore_other_objects (range_keys : gmap Z Z -> list Z)
    (options : list Option) (other : string) :
  Forall (exposed_option range_keys) options ->
  apply_options options (IsOther other) = (IsOther other, None).
Proof.
  induction 1 as [| option options Hexp _ IH]; [reflexivity |].
  cbn [apply_options].
  destruct Hexp as [val | val | val]; cbn; exact IH.
Qed.

Lemma options_ignore_other_objects_witness :
  Forall (exposed_option backwards)
    [WithQMC5883LODR backwards 7; WithQMC5883LOSR backwards 512] /\
  apply_options [WithQMC5883LODR backwards 7; WithQMC5883LOSR backwards 512]
    (IsOther "HMC5883L")
  = (IsOther "HMC5883L", None).
Proof.
  assert (Hexp : Forall (exposed_option backwards)
                   [WithQMC5883LODR backwards 7; WithQMC5883LOSR backwards 512]).
  { repeat constructor. }
  split; [exact Hexp |].
  exact (options_ignore_other_objects backwards _ "HMC5883L" Hexp).
Defined.

(** ** The packing of control register 1 *)

Lemma land_lor_4 (a b c d m : Z) :
  Z.land (Z.lor (Z.lor (Z.lor a b) c) d) m
  = Z.lor (Z.lor (Z.lor (Z.land a m) (Z.land b m)) (Z.land c m)) (Z.land d m).
Proof. rewrite !Z.land_lor_distr_l. reflexivity. Qed.

(** X5. For a driver with validated fields the byte written to control
    register 1 is a byte, and each field can be read back from it under its
    own mask: the mode under 0x03, the rate bits under 0x0C, the range bit
    under 0x10, the oversampling bits under 0xC0; bit 5 is never set. No two
    fields share a bit. *)
Theorem ctrl1_fields_recoverable (q : QMC5883LDriver) :
  well_formed q ->
  0 <= ctrl1_of q < 256 /\
  Z.land (ctrl1_of q) 0x03 = mode q /\
  Z.land (ctrl1_of q) 0x0C = map_index qmc5883lODRBits (odr q) /\
  Z.land (ctrl1_of q) 0x10 = map_index qmc5883lRNGBits (rng q) /\
  Z.land (ctrl1_of q) 0xC0 = osr q /\
  Z.land (ctrl1_of q) 0x20 = 0.
Proof.
  intros (_ & Hodr & Hrng & Hosr & Hmode).
  unfold ctrl1_of. rewrite !land_lor_4, Hmode.
  simpl in Hodr, Hrng, Hosr.
  destruct Hodr as [<- | [<- | [<- | [<- | []]]]];
    destruct Hrng as [<- | [<- | []]];
    destruct Hosr as [<- | [<- | [<- | [<- | []]]]];
    vm_compute; intuition congruence.
Qed.

Lemma ctrl1_fields_recoverable_witness :
  well_formed three_options_driver /\
  0 <= ctrl1_of three_options_driver < 256 /\
  Z.land (ctrl1_of three_options_driver) 0x03 = mode three_options_driver /\
  Z.land (ctrl1_of three_options_driver) 0x0C
  = map_index qmc5883lODRBits (odr three_options_driver) /\
  Z.land (ctrl1_of three_options_driver) 0x10
  = map_index qmc5883lRNGBits (rng three_options_driver) /\
  Z.land (ctrl1_of three_options_driver) 0xC0 = osr three_options_driver /\
  Z.land (ctrl1_of three_options_driver) 0x20 = 0.
Proof.
  assert (Hq : well_formed three_options_driver).
  { repeat split; simpl; auto 6. }
  split; [exact Hq |].
  exact (ctrl1_fields_recoverable three_options_driver Hq).
Defined.

(** X6. Two drivers with validated fields that put the same byte in control
    register 1 are configured alike: the byte determines the output data
    rate, the range, the oversampling pattern and the mode. *)
Theorem ctrl1_injective (q1 q2 : QMC5883LDriver) :
  well_formed q1 ->
  well_formed q2 ->
  ctrl1_of q1 = ctrl1_of q2 ->
  q1 = q2.
Proof.
  intros Hq1 Hq2 Heq.
  destruct (ctrl1_fields_recoverable q1 Hq1) as (_ & _ & Ho1 & Hr1 & Hs1 & _).
  destruct (ctrl1_fields_recoverable q2 Hq2) as (_ & _ & Ho2 & Hr2 & Hs2 & _).
  rewrite Heq in Ho1, Hr1, Hs1.
  rewrite Ho2 in Ho1. rewrite Hr2 in Hr1. rewrite Hs2 in Hs1.
  destruct Hq1 as (Hd1 & Hodr1 & Hrng1 & _ & Hm1).
  destruct Hq2 as (Hd2 & Hodr2 & Hrng2 & _ & Hm2).
  destruct q1 as [d1 o1 r1 s1 m1], q2 as [d2 o2 r2 s2 m2].
  cbn [driver odr rng osr mode] in *. subst d1 d2 m1 m2 s2.
  assert (Ho : o1 = o2).
  { simpl in Hodr1, Hodr2.
    destruct Hodr1 as [<- | [<- | [<- | [<- | []]]]];
      destruct Hodr2 as [<- | [<- | [<- | [<- | []]]]];
      first [reflexivity | discriminate Ho1]. }
  assert (Hr : r1 = r2).
  { simpl in Hrng1, Hrng2.
    destruct Hrng1 as [<- | [<- | []]];
      destruct Hrng2 as [<- | [<- | []]];
      first [reflexivity | discriminate Hr1]. }
  subst. reflexivity.
Qed.

Lemma ctrl1_injective_witness :
  well_formed default_driver /\
  well_formed (mkQMC5883LDriver (NewDriver "QMC5883L" 0x0D) 50 2 0x00 0x01) /\
  ctrl1_of default_driver
  = ctrl1_of (mkQMC5883LDriver (NewDriver "QMC5883L" 0x0D) 50 2 0x00 0x01) /\
  default_driver = mkQMC5883LDriver (NewDriver "QMC5883L" 0x0D) 50 2 0x00 0x01.
Proof.
  assert (Hq : well_formed default_driver).
  { repeat split; simpl; auto 6. }
  split; [exact Hq |]. split; [exact Hq |]. split; [reflexivity |].
  exact (ctrl1_injective default_driver _ Hq Hq eq_refl).
Defined.

(** ** The block and its three words *)

Lemma of_byte_byte_of (z : Z) : 0 <= z < 256 -> Int.of_byte (byte_of z) = z.
Proof.
  intros Hz. unfold Int.of_byte, byte_of.
  destruct (Byte.of_N (Z.to_N z)) as [b |] eqn:Hb.
  - apply Byte.to_of_N in Hb. change (default x00 (Some b)) with b. rewrite Hb. lia.
  - apply Byte.of_N_None_iff in Hb. lia.
Qed.

Lemma byte_of_of_byte (b : byte) : byte_of (Int.of_byte b) = b.
Proof.
  unfold Int.of_byte, byte_of. rewrite N2Z.id, Byte.of_to_N. reflexivity.
Qed.

(** The word of the two bytes of [v] is [v]. *)
Lemma word16_encode16 (v : Z) :
  Int.in_int16 v ->
  word16 ((v mod 65536) / 256) ((v mod 65536) mod 256) = v.
Proof.
  unfold Int.in_int16. intros Hv.
  pose proof (Z.mod_pos_bound v 65536 ltac:(lia)) as Hu.
  pose proof (Z.div_mod (v mod 65536) 256 ltac:(lia)) as Hdm.
  pose proof (Z.mod_pos_bound (v mod 65536) 256 ltac:(lia)) as Hlo.
  assert (Hhi : 0 <= (v mod 65536) / 256 < 256).
  { split; [apply Z.div_pos; lia | apply Z.div_lt_upper_bound; lia]. }
  rewrite word16_arith by assumption.
  destruct (Z_lt_le_dec v 0) as [Hneg | Hpos].
  - assert (Hmod : v mod 65536 = v + 65536).
    { symmetry. apply (Z.mod_unique v 65536 (-1)); lia. }
    destruct (Z.ltb_spec ((v mod 65536) / 256) 128); lia.
  - assert (Hmod : v mod 65536 = v) by (apply Z.mod_small; lia).
    destruct (Z.ltb_spec ((v mod 65536) / 256) 128); lia.
Qed.

(** The two bytes of the word of [hi] and [lo] are [hi] and [lo]. *)
Lemma encode16_word16 (hi lo : byte) :
  encode16 (word16 (Int.of_byte hi) (Int.of_byte lo)) = [hi; lo].
Proof.
  pose proof (of_byte_range hi) as Hhi. pose proof (of_byte_range lo) as Hlo.
  unfold encode16.
  assert (Hu : word16 (Int.of_byte hi) (Int.of_byte lo) mod 65536
               = 256 * Int.of_byte hi + Int.of_byte lo).
  { rewrite word16_arith by assumption.
    destruct (Z.ltb_spec (Int.of_byte hi) 128).
    - apply Z.mod_small. lia.
    - symmetry. apply (Z.mod_unique _ 65536 (-1)); lia. }
  rewrite Hu.
  assert (Hq : (256 * Int.of_byte hi + Int.of_byte lo) / 256 = Int.of_byte hi).
  { symmetry. apply (Z.div_unique _ 256 _ (Int.of_byte lo)); lia. }
  assert (Hr : (256 * Int.of_byte hi + Int.of_byte lo) mod 256 = Int.of_byte lo).
  { symmetry. apply (Z.mod_unique _ 256 (Int.of_byte hi)); lia. }
  rewrite Hq, Hr, !byte_of_of_byte. reflexivity.
Qed.

(** X7. Every triple of 16-bit values is the reading of a block: the six
    bytes that hold x, y and z in two's complement, each word high byte
    first, are decoded by [readRawData]'s expressions to x, y and z. *)
Theorem decode_encode (x y z : Z) :
  Int.in_int16 x -> Int.in_int16 y -> Int.in_int16 z ->
  length (encode (x, y, z)) = 6%nat /\
  decode (encode (x, y, z)) = (x, y, z).
Proof.
  intros Hx Hy Hz. split; [reflexivity |].
  rewrite decode_words. unfold encode, encode16, byte_at. cbn [app nth].
  assert (Hb : forall v, Int.in_int16 v ->
            0 <= (v mod 65536) / 256 < 256 /\ 0 <= (v mod 65536) mod 256 < 256).
  { intros v _.
    pose proof (Z.mod_pos_bound v 65536 ltac:(lia)).
    pose proof (Z.mod_pos_bound (v mod 65536) 256 ltac:(lia)).
    split; [| assumption].
    split; [apply Z.div_pos; lia | apply Z.div_lt_upper_bound; lia]. }
  destruct (Hb x Hx), (Hb y Hy), (Hb z Hz).
  rewrite !of_byte_byte_of by assumption.
  rewrite !word16_encode16 by assumption. reflexivity.
Qed.

Lemma decode_encode_witness :
  Int.in_int16 (-1) /\ Int.in_int16 256 /\ Int.in_int16 (-32768) /\
  length (encode (-1, 256, -32768)) = 6%nat /\
  decode (encode (-1, 256, -32768)) = (-1, 256, -32768).
Proof.
  assert (H1 : Int.in_int16 (-1)) by (unfold Int.in_int16; lia).
  assert (H2 : Int.in_int16 256) by (unfold Int.in_int16; lia).
  assert (H3 : Int.in_int16 (-32768)) by (unfold Int.in_int16; lia).
  split; [exact H1 |]. split; [exact H2 |]. split; [exact H3 |].
  exact (decode_encode (-1) 256 (-32768) H1 H2 H3).
Defined.

(** X8. The three words determine the block: encoding what a 6-byte block
    decodes to gives the block back, so that two 6-byte blocks with the same
    reading are the same block. *)
Theorem encode_decode (data data' : list byte) :
  length data = 6%nat ->
  encode (decode data) = data /\
  (length data' = 6%nat -> decode data = decode data' -> data = data').
Proof.
  assert (Hrt : forall d : list byte, length d = 6%nat -> encode (decode d) = d).
  { intros d Hd.
    destruct d as [| b0 [| b1 [| b2 [| b3 [| b4 [| b5 [| ? ?]]]]]]]; try discriminate Hd.
    rewrite decode_words. unfold byte_at. cbn [nth encode].
    rewrite !encode16_word16. reflexivity. }
  intros Hlen. split; [exact (Hrt data Hlen) |].
  intros Hlen' Heq.
  rewrite <- (Hrt data Hlen), <- (Hrt data' Hlen'), Heq. reflexivity.
Qed.

Lemma encode_decode_witness :
  length block_mixed = 6%nat /\
  encode (decode block_mixed) = block_mixed /\
  (length block_12000 = 6%nat -> decode block_mixed = decode block_12000 ->
   block_mixed = block_12000).
Proof.
  split; [reflexivity |].
  exact (encode_decode block_mixed block_12000 eq_refl).
Defined.

(** ** The footprint of an acquisition *)

(** X9. A raw read makes exactly one bus call, a block read of 6 bytes at
    register 0x00. Its three values are 16-bit values; when the call fails
    they are zero, whatever the bus left in the buffer, and the error is the
    bus's. *)
Theorem readRawData_error_returns_zeros {W : Type} `{Connection W}
    (q : QMC5883LDriver) (w w' : W) (x y z : Z) (err : option error) (t : list event) :
  readRawData q w = (x, y, z, err, w', t) ->
  (exists data : list byte,
     t = [EvReadBlockData 0x00 data err] /\ length data = 6%nat) /\
  (Int.in_int16 x /\ Int.in_int16 y /\ Int.in_int16 z) /\
  (err <> None -> x = 0 /\ y = 0 /\ z = 0).
Proof.
  intros Hrun.
  destruct (readRawData_run q w) as (data & err' & w1 & Hlen & Hraw).
  rewrite Hraw in Hrun. destruct err' as [e |].
  - injection Hrun as <- <- <- <- _ <-.
    split; [exists data; split; [reflexivity | exact Hlen] |].
    split; [unfold Int.in_int16; lia | auto].
  - pose proof (decode_range data) as Hr.
    destruct (decode data) as [[x0 y0] z0].
    injection Hrun as <- <- <- <- _ <-.
    split; [exists data; split; [reflexivity | exact Hlen] |].
    split; [exact Hr | intros Hne; contradiction].
Qed.

Lemma readRawData_error_returns_zeros_witness :
  readRawData default_driver (mkScript [(block_mixed, Some bus_down)] [])
  = (0, 0, 0, Some bus_down, mkScript [] [],
     [EvReadBlockData 0x00 block_mixed (Some bus_down)]) /\
  (exists data : list byte,
     [EvReadBlockData 0x00 block_mixed (Some bus_down)]
     = [EvReadBlockData 0x00 data (Some bus_down)] /\ length data = 6%nat) /\
  (Int.in_int16 0 /\ Int.in_int16 0 /\ Int.in_int16 0) /\
  (Some bus_down <> None -> 0 = 0 /\ 0 = 0 /\ 0 = 0).
Proof.
  assert (Hrun : readRawData default_driver (mkScript [(block_mixed, Some bus_down)] [])
                 = (0, 0, 0, Some bus_down, mkScript [] [],
                    [EvReadBlockData 0x00 block_mixed (Some bus_down)])).
  { vm_compute. reflexivity. }
  split; [exact Hrun |].
  exact (readRawData_error_returns_zeros default_driver _ _ _ _ _ _ _ Hrun).
Defined.

Lemma total_sleep_app (t1 t2 : list event) :
  total_sleep (t1 ++ t2) = total_sleep t1 + total_sleep t2.
Proof. unfold total_sleep. rewrite flat_map_app. apply Zsum_app. Qed.

Lemma byte_writes_app (t1 t2 : list event) :
  byte_writes (t1 ++ t2) = byte_writes t1 ++ byte_writes t2.
Proof. unfold byte_writes. apply flat_map_app. Qed.

Lemma successful_reads_app (t1 t2 : list event) :
  successful_reads (t1 ++ t2) = (successful_reads t1 + successful_reads t2)%nat.
Proof.
  unfold successful_reads. rewrite raw_reads_app, filter_app, length_app. reflexivity.
Qed.

Section FootprintFacts.

Context {W : Type} `{Connection W}.

(** The loop emits acquisition events only, sleeps 10 ms after each read
    that succeeds, and makes at most [n] reads. *)
Lemma Read_loop_footprint (q : QMC5883LDriver) (n : nat) :
  forall (sums : Z * Z * Z) (w w' : W) (r : Z * Z * Z + error) (t : list event),
    Read_loop q n sums w = (r, w', t) ->
    Forall acquisition_event t /\
    byte_writes t = [] /\
    total_sleep t = 10 * Z.of_nat (successful_reads t) /\
    (length (raw_reads t) <= n)%nat /\
    (forall s, r = inl s -> successful_reads t = n).
Proof.
  induction n as [| n IH]; intros sums w w' r t Hrun.
  - injection Hrun as <- _ <-. repeat split; try constructor.
  - destruct (readRawData_run q w) as (data & err & w1 & Hlen & Hraw).
    cbn [Read_loop] in Hrun. rewrite (bind_step _ _ _ _ _ _ Hraw) in Hrun.
    destruct err as [err |].
    + injection Hrun as <- _ <-.
      split; [repeat constructor; assumption |].
      split; [reflexivity |]. split; [reflexivity |].
      split; [simpl; lia | intros s Hs; discriminate Hs].
    + destruct sums as [[sumX sumY] sumZ].
      destruct (decode data) as [[xr yr] zr].
      rewrite (bind_step (Sleep 10) _ w1 w1 tt [EvSleep 10] eq_refl) in Hrun.
      destruct (Read_loop q n _ w1) as [[r1 w2] t1] eqn:Hloop.
      injection Hrun as <- _ <-.
      destruct (IH _ _ _ _ _ Hloop) as (Hall & Hwr & Hsl & Hcnt & Hok).
      split; [repeat constructor; assumption |].
      change (EvReadBlockData qmc5883lRegX data None :: EvSleep 10 :: t1)
        with ([EvReadBlockData qmc5883lRegX data None; EvSleep 10] ++ t1).
      split; [rewrite byte_writes_app, Hwr; reflexivity |].
      split.
      { rewrite total_sleep_app, successful_reads_app, Hsl.
        change (total_sleep [EvReadBlockData qmc5883lRegX data None; EvSleep 10]) with 10.
        change (successful_reads [EvReadBlockData qmc5883lRegX data None; EvSleep 10])
          with 1%nat.
        lia. }
      split.
      { rewrite raw_reads_app, length_app. simpl. lia. }
      intros s Hs. rewrite successful_reads_app, (Hok s Hs). reflexivity.
Qed.

End FootprintFacts.

(** X10. Every filtered read, failed or not, takes the lock first and
    releases it last, and in between only reads 6-byte blocks at register
    0x00 and pauses 10 ms: it never writes to the bus and never touches the
    lock again. It makes at most 10 reads and sleeps 10 ms for each read that
    succeeds, so 100 ms when it returns values. *)
Theorem Read_footprint {W : Type} `{Connection W}
    (q : QMC5883LDriver) (w w' : W) (x y z : float) (err : option error)
    (t : list event) :
  Read q w = (x, y, z, err, w', t) ->
  (exists mid, t = EvLock :: mid ++ [EvUnlock] /\ Forall acquisition_event mid) /\
  byte_writes t = [] /\
  (length (raw_reads t) <= 10)%nat /\
  total_sleep t = 10 * Z.of_nat (successful_reads t) /\
  (err = None -> total_sleep t = 100).
Proof.
  intros Hrun. unfold Read in Hrun.
  rewrite (bind_step Lock _ w w tt [EvLock] eq_refl) in Hrun.
  destruct (Read_loop q numReadings (0, 0, 0) w) as [[r w1] t1] eqn:Hloop.
  destruct (Read_loop_footprint q _ _ _ _ _ _ Hloop) as (Hall & Hwr & Hsl & Hcnt & Hok).
  rewrite (bind_step _ _ _ _ _ _ Hloop) in Hrun.
  assert (Ht : t = EvLock :: t1 ++ [EvUnlock] /\ (err = None -> exists s, r = inl s)).
  { destruct r as [[[sumX sumY] sumZ] | e];
      rewrite (bind_step Unlock _ w1 w1 tt [EvUnlock] eq_refl) in Hrun;
      cbn in Hrun; rewrite ?app_nil_r in Hrun;
      injection Hrun as _ _ _ <- _ <-.
    - split; [reflexivity | eauto].
    - split; [reflexivity | intros Hne; discriminate Hne]. }
  destruct Ht as [-> Hsucc].
  change (EvLock :: t1 ++ [EvUnlock]) with ([EvLock] ++ t1 ++ [EvUnlock]).
  assert (Hts : total_sleep ([EvLock] ++ t1 ++ [EvUnlock])
                = 10 * Z.of_nat (successful_reads ([EvLock] ++ t1 ++ [EvUnlock]))).
  { rewrite !total_sleep_app, !successful_reads_app, Hsl.
    change (total_sleep [EvLock]) with 0. change (total_sleep [EvUnlock]) with 0.
    change (successful_reads [EvLock]) with 0%nat.
    change (successful_reads [EvUnlock]) with 0%nat. lia. }
  split; [exists t1; split; [reflexivity | exact Hall] |].
  split; [rewrite !byte_writes_app, Hwr; reflexivity |].
  split; [rewrite !raw_reads_app, !length_app; simpl; unfold numReadings in Hcnt; lia |].
  split; [exact Hts |].
  intros Hnone. destruct (Hsucc Hnone) as [s Hs].
  rewrite Hts, !successful_reads_app, (Hok s Hs).
  reflexivity.
Qed.

Lemma Read_footprint_witness :
  Read default_driver fails_at_fourth
  = (0%float, 0%float, 0%float, Some bus_down,
     mkScript (repeat (block_mixed, None) 6) [], fails_at_fourth_trace) /\
  (exists mid,
     fails_at_fourth_trace = EvLock :: mid ++ [EvUnlock] /\
     Forall acquisition_event mid) /\
  byte_writes fails_at_fourth_trace = [] /\
  (length (raw_reads fails_at_fourth_trace) <= 10)%nat /\
  total_sleep fails_at_fourth_trace
  = 10 * Z.of_nat (successful_reads fails_at_fourth_trace) /\
  (Some bus_down = None -> total_sleep fails_at_fourth_trace = 100).
Proof.
  assert (Hrun : Read default_driver fails_at_fourth
                 = (0%float, 0%float, 0%float, Some bus_down,
                    mkScript (repeat (block_mixed, None) 6) [], fails_at_fourth_trace)).
  { vm_compute. reflexivity. }
  split; [exact Hrun |].
  exact (Read_footprint default_driver fails_at_fourth _ _ _ _ _ _ Hrun).
Defined.

(** ** Acquisition and configuration *)

Section ConfigurationFrame.

Context {W : Type} `{Connection W}.

Lemma Read_loop_any_driver (q q' : QMC5883LDriver) (n : nat) :
  forall (sums : Z * Z * Z) (w : W),
    Read_loop q n sums w = Read_loop q' n sums w.
Proof.
  induction n as [| n IH]; intros sums w; [reflexivity |].
  cbn [Read_loop]. unfold mbind, M_bind.
  change (readRawData q' w) with (readRawData q w).
  destruct (readRawData q w) as [[[[[xr yr] zr] [err |]] w1] t1]; [reflexivity |].
  destruct sums as [[sumX sumY] sumZ].
  unfold Sleep, emit. rewrite IH. reflexivity.
Qed.

End ConfigurationFrame.

(** X11. Of the configuration, a filtered read uses the range alone, and
    only to scale: two drivers on the same bus make the same bus calls, leave
    the bus in the same state and return the same error whatever their
    settings, and return the same values as soon as their ranges agree. The
    output data rate, the oversampling ratio and the mode play no part. *)
Theorem Read_uses_range_only {W : Type} `{Connection W}
    (q q' : QMC5883LDriver) (w w1 w2 : W) (x y z x' y' z' : float)
    (err err' : option error) (t t' : list event) :
  Read q w = (x, y, z, err, w1, t) ->
  Read q' w = (x', y', z', err', w2, t') ->
  t = t' /\ w1 = w2 /\ err = err' /\
  (rng q = rng q' -> x = x' /\ y = y' /\ z = z').
Proof.
  unfold Read, mbind, M_bind, Lock, Unlock, emit, mret, M_ret.
  rewrite (Read_loop_any_driver q' q).
  destruct (Read_loop q numReadings (0, 0, 0) w) as [[[[[sumX sumY] sumZ] | e] w3] t3].
  - intros [= <- <- <- <- <- <-] [= <- <- <- <- <- <-].
    split; [reflexivity |]. split; [reflexivity |]. split; [reflexivity |].
    intros ->. repeat split; reflexivity.
  - intros [= <- <- <- <- <- <-] [= <- <- <- <- <- <-].
    repeat split; reflexivity.
Qed.

Lemma Read_uses_range_only_witness :
  Read default_driver ten_blocks
  = (1%float, 0%float, 0%float, None, mkScript [] [], ten_blocks_trace) /\
  Read (mkQMC5883LDriver (driver default_driver) 200 2 0xC0 0x01) ten_blocks
  = (1%float, 0%float, 0%float, None, mkScript [] [], ten_blocks_trace) /\
  ten_blocks_trace = ten_blocks_trace /\
  mkScript [] [] = mkScript [] [] /\
  @None error = None /\
  (rng default_driver = rng (mkQMC5883LDriver (driver default_driver) 200 2 0xC0 0x01) ->
   1%float = 1%float /\ 0%float = 0%float /\ 0%float = 0%float).
Proof.
  assert (H1 : Read default_driver ten_blocks
               = (1%float, 0%float, 0%float, None, mkScript [] [], ten_blocks_trace)).
  { vm_compute. reflexivity. }
  assert (H2 : Read (mkQMC5883LDriver (driver default_driver) 200 2 0xC0 0x01) ten_blocks
               = (1%float, 0%float, 0%float, None, mkScript [] [], ten_blocks_trace)).
  { vm_compute. reflexivity. }
  split; [exact H1 |]. split; [exact H2 |].
  exact (Read_uses_range_only default_driver _ ten_blocks
           _ _ _ _ _ _ _ _ _ _ _ _ H1 H2).
Defined.

(** ** Heading and the filtered read *)

Section HeadingRuns.

Context {W : Type} `{Connection W}.

Variable Atan2 : float -> float -> float.

(** A heading is one filtered read, and a value made from its x and y. *)
Lemma Heading_run (q : QMC5883LDriver) (w w' : W) (h : float) (err : option error)
    (t : list event) :
  Heading Atan2 q w = (h, err, w', t) ->
  exists x y z,
    Read q w = (x, y, z, err, w', t) /\
    h = match err with
        | Some _ => 0%float
        | None => to_degrees (Atan2 y x)
        end.
Proof.
  destruct (Read q w) as [[[[[x y] z] err1] w1] t1] eqn:Hread.
  destruct err1 as [e |].
  - rewrite (Heading_propagates_error Atan2 q w w1 x y z e t1 Hread).
    intros [= <- <- <- <-]. exists x, y, z. split; reflexivity.
  - rewrite (Heading_of_Read Atan2 q w w1 x y z t1 Hread).
    intros [= <- <- <- <-]. exists x, y, z. split; reflexivity.
Qed.

End HeadingRuns.

(** X12. Whatever function stands for [math.Atan2]: if a raw read fails
    during [Heading], that read is the last bus call, made after fewer than
    10 others, only the release of the lock follows it, and [Heading]
    returns 0 together with that very error. *)
Theorem Heading_aborts_on_bus_error {W : Type} `{Connection W}
    (Atan2 : float -> float -> float)
    (q : QMC5883LDriver) (w w' : W) (h : float) (err : option error)
    (t : list event) (i : nat) (data : list byte) (e : error) :
  Heading Atan2 q w = (h, err, w', t) ->
  raw_reads t !! i = Some (data, Some e) ->
  h = 0%float /\
  err = Some e /\
  length (raw_reads t) = S i /\
  (i < 10)%nat /\
  (exists pre, t = pre ++ [EvReadBlockData 0x00 data (Some e); EvUnlock]).
Proof.
  intros Hhead Hi.
  destruct (Heading_run Atan2 q w w' h err t Hhead) as (x & y & z & Hrun & Hh).
  destruct (Read_run q w) as (blocks & w1 & Hall & [[Hn Hread] | (data' & e' & Hn & Hread)]);
    rewrite Hread in Hrun; injection Hrun as _ _ _ Herr _ Ht; subst t.
  - exfalso. rewrite raw_reads_success, list_lookup_fmap in Hi.
    destruct (blocks !! i); discriminate Hi.
  - rewrite raw_reads_failure in *.
    assert (Hlen : length (map (fun d : list byte => (d, @None error)) blocks) = length blocks)
      by apply length_map.
    assert (Hpos : i = length blocks).
    { destruct (Nat.lt_ge_cases i (length blocks)) as [Hlt | Hge].
      - rewrite lookup_app_l, list_lookup_fmap in Hi by lia.
        destruct (blocks !! i); discriminate Hi.
      - apply lookup_lt_Some in Hi. rewrite length_app in Hi. simpl in Hi. lia. }
    subst i.
    rewrite lookup_app_r in Hi by lia.
    rewrite Hlen, Nat.sub_diag in Hi. injection Hi as Hd He. subst data' e' err.
    split; [exact Hh |]. split; [reflexivity |].
    split; [rewrite length_app; simpl; lia |].
    split; [exact Hn |].
    exists (EvLock :: ok_events blocks). simpl. rewrite <- app_assoc. reflexivity.
Qed.

Lemma Heading_aborts_on_bus_error_witness :
  Heading (fun y x : float => PrimFloat.add y x) default_driver fails_at_fourth
  = (0%float, Some bus_down, mkScript (repeat (block_mixed, None) 6) [],
     fails_at_fourth_trace) /\
  raw_reads fails_at_fourth_trace !! 3%nat = Some (make_bytes 6, Some bus_down) /\
  0%float = 0%float /\
  Some bus_down = Some bus_down /\
  length (raw_reads fails_at_fourth_trace) = 4%nat /\
  (3 < 10)%nat /\
  (exists pre,
     fails_at_fourth_trace
     = pre ++ [EvReadBlockData 0x00 (make_bytes 6) (Some bus_down); EvUnlock]).
Proof.
  assert (Hrun : Heading (fun y x : float => PrimFloat.add y x) default_driver fails_at_fourth
                 = (0%float, Some bus_down, mkScript (repeat (block_mixed, None) 6) [],
                    fails_at_fourth_trace)).
  { vm_compute. reflexivity. }
  assert (Hfail : raw_reads fails_at_fourth_trace !! 3%nat
                  = Some (make_bytes 6, Some bus_down)).
  { vm_compute. reflexivity. }
  split; [exact Hrun |]. split; [exact Hfail |].
  exact (Heading_aborts_on_bus_error _ default_driver fails_at_fourth _ _ _ _ _ _ _
           Hrun Hfail).
Defined.

(** X13. Whatever function stands for [math.Atan2]: a [Heading] all of
    whose raw reads succeed makes the 10 reads of one filtered read and
    nothing else on the bus, returns no error, and returns the conversion to
    degrees of [Atan2] applied to the filtered y, then the filtered x: the
    sums of the 10 y and x samples, each divided by 10 and by the scale of
    the range. *)
Theorem Heading_of_ten_reads {W : Type} `{Connection W}
    (Atan2 : float -> float -> float)
    (q : QMC5883LDriver) (w w' : W) (h : float) (err : option error)
    (t : list event) :
  Heading Atan2 q w = (h, err, w', t) ->
  Forall (fun r : list byte * option error => r.2 = None) (raw_reads t) ->
  err = None /\
  length (raw_reads t) = 10%nat /\
  byte_writes t = [] /\
  h = to_degrees (Atan2 (gauss (Zsum (samples_y t)) (scale_of (rng q)))
                        (gauss (Zsum (samples_x t)) (scale_of (rng q)))).
Proof.
  intros Hhead Hok.
  destruct (Heading_run Atan2 q w w' h err t Hhead) as (x & y & z & Hrun & Hh).
  destruct (Read_run q w) as (blocks & w1 & Hall & [[Hn Hread] | (data & e & Hn & Hread)]);
    rewrite Hread in Hrun; injection Hrun as Hx Hy Hz Herr _ Ht; subst t.
  - subst err. rewrite raw_reads_success in *.
    unfold samples_x, samples_y.
    rewrite raw_reads_success, !map_sample_reads, length_map.
    destruct (samples_in_int16 blocks) as (Hix & Hiy & _).
    destruct (acc32_ten (map sample_x blocks) Hix) as [Hsx _];
      [rewrite length_map; lia |].
    destruct (acc32_ten (map sample_y blocks) Hiy) as [Hsy _];
      [rewrite length_map; lia |].
    rewrite Hsx in Hx. rewrite Hsy in Hy. rewrite average_gauss in Hx, Hy.
    split; [reflexivity |]. split; [exact Hn |].
    split.
    { change (EvLock :: ok_events blocks ++ [EvUnlock])
        with ([EvLock] ++ ok_events blocks ++ [EvUnlock]).
      rewrite !byte_writes_app. simpl. rewrite app_nil_r.
      clear. induction blocks as [| b blocks IH]; [reflexivity | exact IH]. }
    rewrite Hh, <- Hx, <- Hy. reflexivity.
  - exfalso. rewrite raw_reads_failure in Hok.
    apply Forall_app in Hok as [_ Hlast].
    inversion Hlast as [| ? ? Hnone _]. discriminate Hnone.
Qed.

Lemma Heading_of_ten_reads_witness :
  Heading (fun y x : float => PrimFloat.add y x) default_driver ten_blocks
  = (to_degrees 1, None, mkScript [] [], ten_blocks_trace) /\
  Forall (fun r : list byte * option error => r.2 = None) (raw_reads ten_blocks_trace) /\
  @None error = None /\
  length (raw_reads ten_blocks_trace) = 10%nat /\
  byte_writes ten_blocks_trace = [] /\
  to_degrees 1
  = to_degrees
      (PrimFloat.add (gauss (Zsum (samples_y ten_blocks_trace)) (scale_of (rng default_driver)))
                     (gauss (Zsum (samples_x ten_blocks_trace)) (scale_of (rng default_driver)))).
Proof.
  assert (Hrun : Heading (fun y x : float => PrimFloat.add y x) default_driver ten_blocks
                 = (to_degrees 1, None, mkScript [] [], ten_blocks_trace)).
  { vm_compute. reflexivity. }
  assert (Hok : Forall (fun r : list byte * option error => r.2 = None)
                  (raw_reads ten_blocks_trace)).
  { vm_compute. repeat constructor. }
  split; [exact Hrun |]. split; [exact Hok |].
  exact (Heading_of_ten_reads _ default_driver ten_blocks _ _ _ _ Hrun Hok).
Defined.

(** ** The filtered values as numbers *)

Lemma check_from_sound (P : Z -> bool) (n : nat) :
  forall z : Z,
    check_from P n z = true ->
    forall i : Z, z <= i < z + Z.of_nat n -> P i = true.
Proof.
  induction n as [| n IH]; intros z Hc i Hi; [lia |].
  cbn [check_from] in Hc. destruct (P z) eqn:Hz; [| discriminate Hc].
  destruct (Z.eq_dec i z) as [-> | Hne]; [exact Hz |].
  apply (IH (z + 1) Hc). lia.
Qed.

(** The sum of 10 samples lies between -327680 and 327670; there the check
    is run on every sum. *)
Lemma filtered_ok_everywhere :
  check_from filtered_ok (Z.to_nat 655351) (-327680) = true.
Proof. vm_compute. reflexivity. Qed.

Lemma filtered_ok_sum (sum : Z) :
  -327680 <= sum <= 327670 -> filtered_ok sum = true.
Proof.
  intros Hs. apply (check_from_sound filtered_ok _ _ filtered_ok_everywhere). lia.
Qed.

Lemma filtered_ok_facts (sum : Z) :
  -327680 <= sum <= 327670 ->
  (PrimFloat.is_finite (gauss sum 12000) = true /\
   PrimFloat.leb (PrimFloat.div (-32768) 12000) (gauss sum 12000) = true /\
   PrimFloat.leb (gauss sum 12000) (PrimFloat.div 32767 12000) = true /\
   PrimFloat.ltb (gauss sum 12000) 0 = (sum <? 0) /\
   PrimFloat.ltb 0 (gauss sum 12000) = (0 <? sum)) /\
  (PrimFloat.is_finite (gauss sum 3000) = true /\
   PrimFloat.leb (PrimFloat.div (-32768) 3000) (gauss sum 3000) = true /\
   PrimFloat.leb (gauss sum 3000) (PrimFloat.div 32767 3000) = true /\
   PrimFloat.ltb (gauss sum 3000) 0 = (sum <? 0) /\
   PrimFloat.ltb 0 (gauss sum 3000) = (0 <? sum)) /\
  gauss sum 3000 = PrimFloat.mul 4 (gauss sum 12000).
Proof.
  intros Hs. pose proof (filtered_ok_sum sum Hs) as Hok.
  unfold filtered_ok in Hok. cbv zeta in Hok.
  rewrite !Bool.andb_true_iff, !Bool.eqb_true_iff, Leibniz.eqb_spec in Hok.
  intuition.
Qed.

Lemma scale_of_two_values (r : Z) :
  scale_of r = 12000%float \/ scale_of r = 3000%float.
Proof. unfold scale_of. destruct (r =? 8); auto. Qed.

Section ValueFacts.

Context {W : Type} `{Connection W}.

(** The values of a filtered read that succeeds, and the range of the sums
    they come from. *)
Lemma Read_success_sums (q : QMC5883LDriver) (w w' : W) (x y z : float) (t : list event) :
  Read q w = (x, y, z, None, w', t) ->
  (x = gauss (Zsum (samples_x t)) (scale_of (rng q)) /\
   y = gauss (Zsum (samples_y t)) (scale_of (rng q)) /\
   z = gauss (Zsum (samples_z t)) (scale_of (rng q))) /\
  (-327680 <= Zsum (samples_x t) <= 327670 /\
   -327680 <= Zsum (samples_y t) <= 327670 /\
   -327680 <= Zsum (samples_z t) <= 327670).
Proof.
  intros Hrun.
  destruct (Read_run q w) as (blocks & w1 & Hall & [[Hn Hread] | (data & e & Hn & Hread)]);
    rewrite Hread in Hrun; [| discriminate Hrun].
  injection Hrun as Hx Hy Hz _ Ht; subst t.
  unfold samples_x, samples_y, samples_z.
  rewrite raw_reads_success, !map_sample_reads.
  destruct (samples_in_int16 blocks) as (Hix & Hiy & Hiz).
  destruct (acc32_ten (map sample_x blocks) Hix) as [Hsx _]; [rewrite length_map; lia |].
  destruct (acc32_ten (map sample_y blocks) Hiy) as [Hsy _]; [rewrite length_map; lia |].
  destruct (acc32_ten (map sample_z blocks) Hiz) as [Hsz _]; [rewrite length_map; lia |].
  rewrite Hsx in Hx. rewrite Hsy in Hy. rewrite Hsz in Hz.
  rewrite average_gauss in Hx, Hy, Hz.
  pose proof (Zsum_bounds _ Hix) as Hbx. pose proof (Zsum_bounds _ Hiy) as Hby.
  pose proof (Zsum_bounds _ Hiz) as Hbz.
  rewrite length_map, Hn in Hbx, Hby, Hbz.
  split; [auto |]. repeat split; lia.
Qed.

End ValueFacts.

(** X14. The values of a filtered read that succeeds are finite numbers,
    never NaN or an infinity, and each lies between -32768/scale and
    32767/scale, the values of the extreme readings: within about 2.73 Gauss
    at scale 12000 and 10.93 Gauss at scale 3000. *)
Theorem Read_values_bounded {W : Type} `{Connection W}
    (q : QMC5883LDriver) (w w' : W) (x y z : float) (t : list event) :
  Read q w = (x, y, z, None, w', t) ->
  Forall (fun v : float =>
            PrimFloat.is_finite v = true /\
            PrimFloat.leb (PrimFloat.div (-32768) (scale_of (rng q))) v = true /\
            PrimFloat.leb v (PrimFloat.div 32767 (scale_of (rng q))) = true)
         [x; y; z].
Proof.
  intros Hrun.
  destruct (Read_success_sums q w w' x y z t Hrun) as ((-> & -> & ->) & Hbx & Hby & Hbz).
  destruct (filtered_ok_facts _ Hbx) as ((Fx2 & Lx2 & Ux2 & _) & (Fx8 & Lx8 & Ux8 & _) & _).
  destruct (filtered_ok_facts _ Hby) as ((Fy2 & Ly2 & Uy2 & _) & (Fy8 & Ly8 & Uy8 & _) & _).
  destruct (filtered_ok_facts _ Hbz) as ((Fz2 & Lz2 & Uz2 & _) & (Fz8 & Lz8 & Uz8 & _) & _).
  destruct (scale_of_two_values (rng q)) as [-> | ->]; repeat constructor; assumption.
Qed.

Lemma Read_values_bounded_witness :
  Read default_driver ten_blocks
  = (1%float, 0%float, 0%float, None, mkScript [] [], ten_blocks_trace) /\
  Forall (fun v : float =>
            PrimFloat.is_finite v = true /\
            PrimFloat.leb (PrimFloat.div (-32768) (scale_of (rng default_driver))) v = true /\
            PrimFloat.leb v (PrimFloat.div 32767 (scale_of (rng default_driver))) = true)
         [1%float; 0%float; 0%float].
Proof.
  assert (Hrun : Read default_driver ten_blocks
                 = (1%float, 0%float, 0%float, None, mkScript [] [], ten_blocks_trace)).
  { vm_compute. reflexivity. }
  split; [exact Hrun |].
  exact (Read_values_bounded default_driver ten_blocks _ _ _ _ _ Hrun).
Defined.

(** X15. Each value of a filtered read that succeeds has the sign of the
    sum of its 10 samples: it is negative exactly when the sum is, positive
    exactly when the sum is, and it is the positive zero when the sum is
    zero. Averaging and scaling never round a nonzero reading to zero. *)
Theorem Read_values_sign {W : Type} `{Connection W}
    (q : QMC5883LDriver) (w w' : W) (x y z : float) (t : list event) :
  Read q w = (x, y, z, None, w', t) ->
  Forall (fun vs : float * Z =>
            PrimFloat.ltb vs.1 0 = (vs.2 <? 0) /\
            PrimFloat.ltb 0 vs.1 = (0 <? vs.2) /\
            (vs.2 = 0 -> vs.1 = 0%float))
         [(x, Zsum (samples_x t)); (y, Zsum (samples_y t)); (z, Zsum (samples_z t))].
Proof.
  intros Hrun.
  destruct (Read_success_sums q w w' x y z t Hrun) as ((-> & -> & ->) & Hbx & Hby & Hbz).
  destruct (filtered_ok_facts _ Hbx) as ((_ & _ & _ & Nx2 & Px2) & (_ & _ & _ & Nx8 & Px8) & _).
  destruct (filtered_ok_facts _ Hby) as ((_ & _ & _ & Ny2 & Py2) & (_ & _ & _ & Ny8 & Py8) & _).
  destruct (filtered_ok_facts _ Hbz) as ((_ & _ & _ & Nz2 & Pz2) & (_ & _ & _ & Nz8 & Pz8) & _).
  destruct (scale_of_two_values (rng q)) as [-> | ->];
    repeat constructor; cbn [fst snd]; try assumption;
    intros ->; reflexivity.
Qed.

Lemma Read_values_sign_witness :
  Read default_driver ten_blocks
  = (1%float, 0%float, 0%float, None, mkScript [] [], ten_blocks_trace) /\
  Forall (fun vs : float * Z =>
            PrimFloat.ltb vs.1 0 = (vs.2 <? 0) /\
            PrimFloat.ltb 0 vs.1 = (0 <? vs.2) /\
            (vs.2 = 0 -> vs.1 = 0%float))
         [(1%float, Zsum (samples_x ten_blocks_trace));
          (0%float, Zsum (samples_y ten_blocks_trace));
          (0%float, Zsum (samples_z ten_blocks_trace))].
Proof.
  assert (Hrun : Read default_driver ten_blocks
                 = (1%float, 0%float, 0%float, None, mkScript [] [], ten_blocks_trace)).
  { vm_compute. reflexivity. }
  split; [exact Hrun |].
  exact (Read_values_sign default_driver ten_blocks _ _ _ _ _ Hrun).
Defined.

(** X16. On the same bus, a driver set to 8 Gauss returns exactly 4 times
    the values of a driver set to 2 Gauss, in float64 and not only up to
    rounding: the two differ by the scale alone, 3000 against 12000. *)
Theorem Read_8G_is_four_times_2G {W : Type} `{Connection W}
    (q2 q8 : QMC5883LDriver) (w w2 w8 : W) (x2 y2 z2 x8 y8 z8 : float)
    (t2 t8 : list event) :
  rng q2 = 2 ->
  rng q8 = 8 ->
  Read q2 w = (x2, y2, z2, None, w2, t2) ->
  Read q8 w = (x8, y8, z8, None, w8, t8) ->
  x8 = PrimFloat.mul 4 x2 /\
  y8 = PrimFloat.mul 4 y2 /\
  z8 = PrimFloat.mul 4 z2.
Proof.
  intros Hr2 Hr8 Hrun2 Hrun8.
  assert (Ht : t8 = t2).
  { revert Hrun2 Hrun8.
    unfold Read, mbind, M_bind, Lock, Unlock, emit, mret, M_ret.
    rewrite (Read_loop_any_driver q8 q2).
    destruct (Read_loop q2 numReadings (0, 0, 0) w) as [[[[[sumX sumY] sumZ] | e] w3] t3];
      intros [= _ _ _ _ <-] [= _ _ _ _ <-]; reflexivity. }
  destruct (Read_success_sums q2 w w2 x2 y2 z2 t2 Hrun2) as ((-> & -> & ->) & Hbx & Hby & Hbz).
  destruct (Read_success_sums q8 w w8 x8 y8 z8 t8 Hrun8) as ((-> & -> & ->) & _).
  rewrite Ht, Hr2, Hr8.
  change (scale_of 2) with 12000%float. change (scale_of 8) with 3000%float.
  destruct (filtered_ok_facts _ Hbx) as (_ & _ & Hx).
  destruct (filtered_ok_facts _ Hby) as (_ & _ & Hy).
  destruct (filtered_ok_facts _ Hbz) as (_ & _ & Hz).
  auto.
Qed.

Lemma Read_8G_is_four_times_2G_witness :
  rng default_driver = 2 /\
  rng three_options_driver = 8 /\
  Read default_driver ten_blocks
  = (1%float, 0%float, 0%float, None, mkScript [] [], ten_blocks_trace) /\
  Read three_options_driver ten_blocks
  = (4%float, 0%float, 0%float, None, mkScript [] [], ten_blocks_trace) /\
  4%float = PrimFloat.mul 4 1 /\
  0%float = PrimFloat.mul 4 0 /\
  0%float = PrimFloat.mul 4 0.
Proof.
  assert (H2 : Read default_driver ten_blocks
               = (1%float, 0%float, 0%float, None, mkScript [] [], ten_blocks_trace)).
  { vm_compute. reflexivity. }
  assert (H8 : Read three_options_driver ten_blocks
               = (4%float, 0%float, 0%float, None, mkScript [] [], ten_blocks_trace)).
  { vm_compute. reflexivity. }
  split; [reflexivity |]. split; [reflexivity |].
  split; [exact H2 |]. split; [exact H8 |].
  exact (Read_8G_is_four_times_2G default_driver three_options_driver ten_blocks
           _ _ _ _ _ _ _ _ _ _ eq_refl eq_refl H2 H8).
Defined.
